(** * go-shutil: copy and move of files, symlinks and directory trees

    A shallow embedding of [shutil.go].  The Go functions are written over an
    interface [OsApi] holding the operating-system primitives they call
    (package [os], [io], [io/ioutil]); the pure helpers of [strings], [path]
    and [path/filepath] are defined directly.  A concrete instance of the
    interface, an in-memory POSIX-like file system, is given in the second
    half of the file and is used to run the functions on concrete trees. *)

From Stdlib Require Import ZArith String Ascii.
From Stdlib.Strings Require Import Byte.
From stdpp Require Import gmap strings list.

Local Open Scope string_scope.
Local Open Scope Z_scope.

(** ** Go package [strings] *)

Definition strings_HasPrefix (s pre : string) : bool := String.prefix pre s.

Definition strings_HasSuffix (s suf : string) : bool :=
  let n := String.length s in
  let k := String.length suf in
  (k <=? n)%nat && String.eqb (String.substring (n - k) k s) suf.

(** [strings.Split(s, "/")] *)
Fixpoint split_sep (s : string) : list string :=
  match s with
  | EmptyString => [EmptyString]
  | String c s' =>
      if Ascii.eqb c "/" then EmptyString :: split_sep s'
      else match split_sep s' with
           | [] => [String c EmptyString]
           | x :: xs => String c x :: xs
           end
  end.

(** [strings.Join(l, "/")] *)
Fixpoint join_sep (l : list string) : string :=
  match l with
  | [] => ""
  | [x] => x
  | x :: xs => x +:+ "/" +:+ join_sep xs
  end.

(** ** Go packages [path] and [path/filepath] (Unix) *)

Definition os_PathSeparator : string := "/".

Definition filepath_IsAbs (p : string) : bool := strings_HasPrefix p "/".

(** One step of [Clean] on the elements kept so far (innermost first). *)
Definition clean_step (rooted : bool) (out : list string) (elem : string)
  : list string :=
  if String.eqb elem "" then out
  else if String.eqb elem "." then out
  else if String.eqb elem ".." then
    match out with
    | [] => if rooted then [] else [".."]
    | last :: out' => if String.eqb last ".." then ".." :: out else out'
    end
  else elem :: out.

(** [filepath.Clean]: collapse repeated separators, drop [.] elements,
    resolve inner [..] elements lexically, drop [..] at the root; the empty
    result is ["."]. *)
Definition filepath_Clean (p : string) : string :=
  if String.eqb p "" then "." else
  let rooted := filepath_IsAbs p in
  let out := rev (fold_left (clean_step rooted) (split_sep p) []) in
  let s := (if rooted then "/" else "") +:+ join_sep out in
  if String.eqb s "" then "." else s.

(** [filepath.Join] of two elements: empty elements are ignored, the rest is
    joined by the separator and cleaned. *)
Definition filepath_Join (a b : string) : string :=
  if String.eqb a "" then
    if String.eqb b "" then "" else filepath_Clean b
  else filepath_Clean (a +:+ "/" +:+ b).

(** Strip the trailing separators of the elements of a split path. *)
Fixpoint last_elem (l : list string) : string :=
  match l with
  | [] => ""
  | x :: xs =>
      let r := last_elem xs in
      if String.eqb r "" then x else r
  end.

(** [filepath.Base]: the last element of the path; ["."] for the empty path
    and the separator for a path of separators only. *)
Definition filepath_Base (p : string) : string :=
  if String.eqb p "" then "." else
  let r := last_elem (split_sep p) in
  if String.eqb r "" then "/" else r.

(** Package [path] agrees with [path/filepath] on Unix. *)
Definition path_Join := filepath_Join.
Definition path_Base := filepath_Base.

(** ** Go package [os]: file modes, file information, errors *)

Definition FileMode := Z.

Definition ModeDir : FileMode := 2 ^ 31.
Definition ModeSymlink : FileMode := 2 ^ 27.
Definition ModeNamedPipe : FileMode := 2 ^ 25.
Definition ModePerm : FileMode := 511.

(** What [os.Stat] reports: name, size, mode and the identity (device and
    inode number) that [os.SameFile] compares. *)
Record FileInfo := {
  fi_Name : string;
  fi_Size : Z;
  fi_Mode : FileMode;
  fi_Dev : Z;
  fi_Ino : Z
}.

Definition IsDir (fi : FileInfo) : bool :=
  negb (Z.land (fi_Mode fi) ModeDir =? 0).

Inductive Errno :=
| ENOENT | EEXIST | ENOTDIR | EISDIR | EACCES | ELOOP | EINVAL
| ENOTEMPTY | EXDEV | EBUSY | EIO.

Inductive error :=
| SameFileError (Src Dst : string)
| SpecialFileError (File : string) (Info : FileInfo)
| NotADirectoryError (Src : string)
| AlreadyExistsError (Dst : string)
| MoveOntoSelfError (Src Dst : string)
| CopiedError (src : string) (size total : Z)
    (* fmt.Errorf("%s: %d/%d copied", src, size, total) *)
| PathError (Op Path : string) (Err : Errno)
| LinkError (Op Old New : string) (Err : Errno).

(** A Go result pair [(value, err)] of the [os] package: the value is nil
    exactly when the error is not. *)
Inductive result (A : Type) :=
| Ok (a : A)
| Err (e : error).
Arguments Ok {A} a.
Arguments Err {A} e.

Definition go_val {A} (r : result A) : option A :=
  match r with Ok a => Some a | Err _ => None end.

Definition go_err {A} (r : result A) : option error :=
  match r with Ok _ => None | Err e => Some e end.

Definition os_IsNotExist (err : option error) : bool :=
  match err with
  | Some (PathError _ _ ENOENT) => true
  | Some (LinkError _ _ _ ENOENT) => true
  | _ => false
  end.

(** [os.SameFile]: false when either side is nil. *)
Definition os_SameFile (fi1 fi2 : option FileInfo) : bool :=
  match fi1, fi2 with
  | Some a, Some b => (fi_Dev a =? fi_Dev b) && (fi_Ino a =? fi_Ino b)
  | _, _ => false
  end.

(** ** Outcomes of a Go call

    A call returns a value in a new world, panics (a nil dereference), or
    does not return within the recursion budget given to it. *)
Inductive outcome (W A : Type) :=
| Ret (a : A) (w : W)
| Panic (w : W)
| Diverge.
Arguments Ret {W A} a w.
Arguments Panic {W A} w.
Arguments Diverge {W A}.

(** ** The operating-system interface

    Queries take the world and answer; commands also give the next world. *)
Class OsApi := {
  World : Type;
  File : Type;
  os_Stat : string -> World -> result FileInfo;
  os_Lstat : string -> World -> result FileInfo;
  os_Readlink : string -> World -> result string;
  os_Getwd : World -> result string;
  os_Open : string -> World -> result File;
  ioutil_ReadDir : string -> World -> result (list FileInfo);
  os_Create : string -> World -> result File * World;
  io_Copy : File -> File -> World -> (Z * option error) * World;
  os_Symlink : string -> string -> World -> option error * World;
  os_Chmod : string -> FileMode -> World -> option error * World;
  os_MkdirAll : string -> FileMode -> World -> option error * World;
  os_Rename : string -> string -> World -> option error * World;
  os_Remove : string -> World -> option error * World;
  os_RemoveAll : string -> World -> option error * World
}.

Section Shutil.

Context {OS : OsApi}.

Definition M (A : Type) : Type := World -> outcome World A.

Definition ret {A} (a : A) : M A := fun w => Ret a w.

Definition bind {A B} (m : M A) (k : A -> M B) : M B :=
  fun w =>
    match m w with
    | Ret a w' => k a w'
    | Panic w' => Panic w'
    | Diverge => Diverge
    end.

(** [filepath.Abs] *)
Definition filepath_Abs (p : string) (w : World) : result string :=
  if filepath_IsAbs p then Ok (filepath_Clean p)
  else match os_Getwd w with
       | Err err => Err err
       | Ok wd => Ok (filepath_Join wd p)
       end.

(** ** shutil.go *)

Definition samefile (src dst : string) (w : World) : bool :=
  let srcInfo := go_val (os_Stat src w) in
  let dstInfo := go_val (os_Stat dst w) in
  os_SameFile srcInfo dstInfo.

Definition specialfile (fi : FileInfo) : bool :=
  Z.land (fi_Mode fi) ModeNamedPipe =? ModeNamedPipe.

Fixpoint stringInSlice (a : string) (l : list string) : bool :=
  match l with
  | [] => false
  | b :: l' => if String.eqb b a then true else stringInSlice a l'
  end.

Definition IsSymlink (fi : FileInfo) : bool :=
  Z.land (fi_Mode fi) ModeSymlink =? ModeSymlink.

(** Lines 124-147 of [CopyFile], "Do the actual copy": [src] and [srcStat]
    are the values the two variables hold when line 124 is reached. *)
Definition CopyFile_copy (src : string) (srcStat : FileInfo) (dst : string)
  : M (option error) := fun w =>
  match os_Open src w with
  | Err err => Ret (Some err) w
  | Ok fsrc =>
      match os_Create dst w with
      | (Err err, w1) => Ret (Some err) w1
      | (Ok fdst, w1) =>
          match io_Copy fdst fsrc w1 with
          | ((_, Some err), w2) => Ret (Some err) w2
          | ((size, None), w2) =>
              if negb (size =? fi_Size srcStat)
              then Ret (Some (CopiedError src size (fi_Size srcStat))) w2
              else Ret None w2
          end
      end
  end.

Definition CopyFile (src dst : string) (followSymlinks : bool)
  : M (option error) := fun w =>
  if samefile src dst w then Ret (Some (SameFileError src dst)) w else
  match os_Lstat src w with
  | Err err => Ret (Some err) w
  | Ok srcStat =>
  if specialfile srcStat then Ret (Some (SpecialFileError src srcStat)) w else
  let dst_check :=
    match os_Stat dst w with
    | Err err => if negb (os_IsNotExist (Some err)) then Some err else None
    | Ok dstStat =>
        if specialfile dstStat then Some (SpecialFileError dst dstStat)
        else None
    end in
  match dst_check with
  | Some err => Ret (Some err) w
  | None =>
  if negb followSymlinks && IsSymlink srcStat then
    let '(err, w1) := os_Symlink src dst w in Ret err w1
  else if IsSymlink srcStat then
    match os_Readlink src w with
    | Err err => Ret (Some err) w
    | Ok src' =>
        match os_Stat src' w with
        | Err err => Ret (Some err) w
        | Ok srcStat' => CopyFile_copy src' srcStat' dst w
        end
    end
  else CopyFile_copy src srcStat dst w
  end
  end.

Definition CopyMode (src dst : string) (followSymlinks : bool)
  : M (option error) := fun w =>
  match os_Lstat src w with
  | Err err => Ret (Some err) w
  | Ok srcStat =>
  match os_Lstat dst w with
  | Err err => Ret (Some err) w
  | Ok dstStat =>
  if negb followSymlinks && IsSymlink srcStat && IsSymlink dstStat
  then Ret None w
  else
    (* srcStat, _ = os.Stat(src): nil when the call fails *)
    match go_val (os_Stat src w) with
    | None => Panic w
    | Some srcStat' =>
        let '(err, w1) := os_Chmod dst (fi_Mode srcStat') w in Ret err w1
    end
  end
  end.

Definition Copy (src dst : string) (followSymlinks : bool)
  : M (string * option error) := fun w =>
  let r := os_Stat dst w in
  let dst :=
    match r with
    | Ok dstInfo =>
        if IsDir dstInfo then filepath_Join dst (filepath_Base src) else dst
    | Err _ => dst
    end in
  if match r with Err err => negb (os_IsNotExist (Some err)) | Ok _ => false end
  then Ret (dst, go_err r) w
  else
    match CopyFile src dst followSymlinks w with
    | Ret (Some err) w1 => Ret (dst, Some err) w1
    | Ret None w1 =>
        match CopyMode src dst followSymlinks w1 with
        | Ret (Some err) w2 => Ret (dst, Some err) w2
        | Ret None w2 => Ret (dst, None) w2
        | Panic w2 => Panic w2
        | Diverge => Diverge
        end
    | Panic w1 => Panic w1
    | Diverge => Diverge
    end.

Definition CopyFunc := string -> string -> bool -> M (string * option error).
Definition IgnoreFunc := string -> list FileInfo -> M (list string).

Record CopyTreeOptions := {
  Symlinks : bool;
  IgnoreDanglingSymlinks : bool;
  CopyFunction : CopyFunc;
  Ignore : option IgnoreFunc
}.

(** The body of the [for _, entry := range entries] loop of [CopyTree];
    [rec] is the recursive call of [CopyTree] with the same options. *)
Fixpoint CopyTree_entries (rec : string -> string -> M (option error))
    (src dst : string) (options : CopyTreeOptions)
    (ignoredNames : list string) (entries : list FileInfo)
  : M (option error) :=
  match entries with
  | [] => ret None
  | entry :: rest =>
      let next := CopyTree_entries rec src dst options ignoredNames rest in
      if stringInSlice (fi_Name entry) ignoredNames then next else
      let srcPath := filepath_Join src (fi_Name entry) in
      let dstPath := filepath_Join dst (fi_Name entry) in
      fun w =>
      match os_Lstat srcPath w with
      | Err err => Ret (Some err) w
      | Ok entryFileInfo =>
          if IsSymlink entryFileInfo then
            match os_Readlink srcPath w with
            | Err err => Ret (Some err) w
            | Ok linkTo =>
                if Symlinks options then
                  let '(_, w1) := os_Symlink linkTo dstPath w in next w1
                else if os_IsNotExist (go_err (os_Stat linkTo w))
                        && IgnoreDanglingSymlinks options
                then next w
                else
                  bind (CopyFunction options srcPath dstPath false)
                    (fun r => match snd r with
                              | Some err => ret (Some err)
                              | None => next
                              end) w
            end
          else if IsDir entryFileInfo then
            bind (rec srcPath dstPath)
              (fun r => match r with
                        | Some err => ret (Some err)
                        | None => next
                        end) w
          else
            bind (CopyFunction options srcPath dstPath false)
              (fun r => match snd r with
                        | Some err => ret (Some err)
                        | None => next
                        end) w
      end
  end.

Definition CopyTree_default : CopyTreeOptions :=
  {| Symlinks := false;
     Ignore := None;
     CopyFunction := Copy;
     IgnoreDanglingSymlinks := false |}.

(** The recursion of [CopyTree] follows the directory tree it reads, which
    it may itself be extending; [fuel] bounds the depth of the recursion. *)
Fixpoint CopyTree (fuel : nat) (src dst : string)
    (options : option CopyTreeOptions) : M (option error) :=
  match fuel with
  | O => fun _ => Diverge
  | S fuel' => fun w =>
  let options :=
    match options with None => CopyTree_default | Some o => o end in
  match os_Stat src w with
  | Err err => Ret (Some err) w
  | Ok srcFileInfo =>
  if negb (IsDir srcFileInfo) then Ret (Some (NotADirectoryError src)) w else
  if negb (os_IsNotExist (go_err (os_Open dst w)))
  then Ret (Some (AlreadyExistsError dst)) w else
  match ioutil_ReadDir src w with
  | Err err => Ret (Some err) w
  | Ok entries =>
  match os_MkdirAll dst (fi_Mode srcFileInfo) w with
  | (Some err, w1) => Ret (Some err) w1
  | (None, w1) =>
      bind (match Ignore options with
            | Some ignore => ignore src entries
            | None => ret []
            end)
        (fun ignoredNames =>
           CopyTree_entries
             (fun s d => CopyTree fuel' s d (Some options))
             src dst options ignoredNames entries) w1
  end
  end
  end
  end.

Definition isDirectory (p : string) (w : World) : bool * option error :=
  match os_Stat p w with
  | Err err => (false, Some err)
  | Ok fileInfo => (IsDir fileInfo, None)
  end.

Record MoveOptions := {
  Move_CopyFunction : CopyFunc
}.

Definition destinsrc (src dst : string) (w : World) : bool * option error :=
  let sep := os_PathSeparator in
  match filepath_Abs src w with
  | Err err => (false, Some err)
  | Ok src =>
  match filepath_Abs dst w with
  | Err err => (false, Some err)
  | Ok dst =>
      let src := if negb (strings_HasSuffix src sep) then src +:+ sep else src in
      let dst := if negb (strings_HasSuffix src sep) then dst +:+ sep else dst in
      (strings_HasPrefix dst src, None)
  end
  end.

(** Lines 392-449 of [Move]: the rename and the fallbacks after it. *)
Definition Move_to (fuel : nat) (src dst real_dst : string)
    (options : MoveOptions) : M (string * option error) := fun w =>
  match os_Rename src real_dst w with
  | (None, w1) => Ret (real_dst, None) w1
  | (Some _, w1) =>
  match os_Lstat src w1 with
  | Err err => Ret ("", Some err) w1
  | Ok srcStat =>
  if IsSymlink srcStat then
    match os_Readlink src w1 with
    | Err err => Ret ("", Some err) w1
    | Ok linkto =>
        match os_Symlink linkto real_dst w1 with
        | (Some err, w2) => Ret ("", Some err) w2
        | (None, w2) =>
            match os_Remove src w2 with
            | (Some err, w3) => Ret ("", Some err) w3
            | (None, w3) => Ret (real_dst, None) w3
            end
        end
    end
  else
  let isSrcDir := fst (isDirectory src w1) in
  if isSrcDir then
    match destinsrc src dst w1 with
    | (_, Some err) => Ret ("", Some err) w1
    | (insrc, None) =>
        if insrc then Ret ("", Some (MoveOntoSelfError src dst)) w1 else
        bind (CopyTree fuel src real_dst
                (Some {| Symlinks := true;
                         IgnoreDanglingSymlinks := false;
                         Ignore := None;
                         CopyFunction := Copy |}))
          (fun _ w2 =>
             let '(_, w3) := os_RemoveAll src w2 in
             Ret (real_dst, None) w3) w1
    end
  else
    bind (Move_CopyFunction options src real_dst true)
      (fun r =>
         match snd r with
         | Some err => ret ("", Some err)
         | None => fun w2 =>
             match os_Remove src w2 with
             | (Some err, w3) => Ret ("", Some err) w3
             | (None, w3) => Ret (real_dst, None) w3
             end
         end) w1
  end
  end.

Definition Move (fuel : nat) (src dst : string) (options : option MoveOptions)
  : M (string * option error) := fun w =>
  let options :=
    match options with
    | None => {| Move_CopyFunction := Copy |}
    | Some o => o
    end in
  (* dst might not exist so ignore any errors *)
  let isDirDst := fst (isDirectory dst w) in
  if isDirDst then
    if samefile src dst w then
      let '(err, w1) := os_Rename src dst w in Ret (dst, err) w1
    else
      let real_dst := path_Join dst (path_Base src) in
      match os_Stat real_dst w with
      | Ok _ => Ret ("", Some (AlreadyExistsError dst)) w
      | Err _ => Move_to fuel src dst real_dst options w
      end
  else Move_to fuel src dst dst options w.

End Shutil.

(** ** An in-memory file system

    The instance of [OsApi] used to run the functions.  Objects are kept by
    canonical path (the list of names from the root, symbolic links
    resolved); there are no hard links.  The process is an unprivileged
    user owning every object; of the permission bits only the owner-write
    bit of a directory is enforced, when an entry is added to it or removed
    from it.  A few devices can be mounted; renaming across them fails. *)

Inductive node :=
| NFile (perm : Z) (data : list byte)
| NDir (perm : Z)
| NLink (target : string)
| NFifo (perm : Z).

Record inode := { i_ino : Z; i_node : node }.

Record MemFS := {
  tree : gmap (list string) inode;
  cwd : list string;
  mounts : list (list string);
  umask : Z;
  next_ino : Z
}.

Inductive walked :=
| Found (p : list string)
| Missing (p : list string)
| Lost (e : Errno).

Definition is_nil {A} (l : list A) : bool :=
  match l with [] => true | _ => false end.

Definition is_some {A} (o : option A) : bool :=
  match o with Some _ => true | None => false end.

(** Path resolution from the directory [cur] along the names [comps].
    Symbolic links met on the way are followed; the one named by the last
    element is followed when [follow] is set.  [Missing p] says that all
    but the last name resolved and nothing is at [p].  [fuel] bounds the
    number of steps, as the kernel bounds path length and link depth. *)
Fixpoint walk (fuel : nat) (t : gmap (list string) inode) (follow : bool)
    (cur : list string) (comps : list string) : walked :=
  match comps with
  | [] => Found cur
  | c :: rest =>
      match fuel with
      | O => Lost ELOOP
      | S fuel' =>
          match i_node <$> t !! cur with
          | Some (NDir _) =>
              if String.eqb c "" || String.eqb c "."
              then walk fuel' t follow cur rest
              else if String.eqb c ".."
              then walk fuel' t follow (removelast cur) rest
              else
                let p := (cur ++ [c])%list in
                match i_node <$> t !! p with
                | None =>
                    if is_nil rest then Missing p else Lost ENOENT
                | Some (NLink target) =>
                    if follow || negb (is_nil rest) then
                      walk fuel' t follow
                        (if filepath_IsAbs target then [] else cur)
                        (split_sep target ++ rest)%list
                    else Found p
                | Some _ => walk fuel' t follow p rest
                end
          | Some _ => Lost ENOTDIR
          | None => Lost ENOENT
          end
      end
  end.

Arguments walk : simpl never.

Definition walk_fuel : nat := 4096.

(** The shape of an object: what resolution looks at. *)
Definition shape (i : inode) : node :=
  match i_node i with
  | NFile _ _ => NFile 0 []
  | NDir _ => NDir 0
  | NLink target => NLink target
  | NFifo _ => NFifo 0
  end.

Definition resolve (fs : MemFS) (follow : bool) (name : string) : walked :=
  if String.eqb name "" then Lost ENOENT
  else walk walk_fuel (tree fs) follow
         (if filepath_IsAbs name then [] else cwd fs) (split_sep name).

Arguments resolve : simpl never.

(** [under p q] is the rest of [q] below [p]. *)
Fixpoint under (p q : list string) : option (list string) :=
  match p with
  | [] => Some q
  | x :: p' =>
      match q with
      | y :: q' => if String.eqb x y then under p' q' else None
      | [] => None
      end
  end.

Fixpoint dev_from (i : Z) (ms : list (list string)) (p : list string) : Z :=
  match ms with
  | [] => 0
  | m :: ms' => if is_some (under m p) then i else dev_from (i + 1) ms' p
  end.

Definition dev_of (fs : MemFS) (p : list string) : Z :=
  dev_from 1 (mounts fs) p.

Definition node_mode (n : node) : FileMode :=
  match n with
  | NFile perm _ => Z.land perm ModePerm
  | NDir perm => Z.lor ModeDir (Z.land perm ModePerm)
  | NLink _ => Z.lor ModeSymlink ModePerm
  | NFifo perm => Z.lor ModeNamedPipe (Z.land perm ModePerm)
  end.

Definition node_size (n : node) : Z :=
  match n with
  | NFile _ data => Z.of_nat (length data)
  | NDir _ => 4096
  | NLink target => Z.of_nat (String.length target)
  | NFifo _ => 0
  end.

Definition info_of (fs : MemFS) (name : string) (p : list string) (i : inode)
  : FileInfo :=
  {| fi_Name := name;
     fi_Size := node_size (i_node i);
     fi_Mode := node_mode (i_node i);
     fi_Dev := dev_of fs p;
     fi_Ino := i_ino i |}.

Definition stat_with (op : string) (follow : bool) (name : string) (fs : MemFS)
  : result FileInfo :=
  match resolve fs follow name with
  | Found p =>
      match tree fs !! p with
      | Some i => Ok (info_of fs (filepath_Base name) p i)
      | None => Err (PathError op name ENOENT)
      end
  | Missing _ => Err (PathError op name ENOENT)
  | Lost e => Err (PathError op name e)
  end.

Definition mem_Stat := stat_with "stat" true.
Definition mem_Lstat := stat_with "lstat" false.

Definition mem_Readlink (name : string) (fs : MemFS) : result string :=
  match resolve fs false name with
  | Found p =>
      match i_node <$> tree fs !! p with
      | Some (NLink target) => Ok target
      | Some _ => Err (PathError "readlink" name EINVAL)
      | None => Err (PathError "readlink" name ENOENT)
      end
  | Missing _ => Err (PathError "readlink" name ENOENT)
  | Lost e => Err (PathError "readlink" name e)
  end.

Definition mem_Getwd (fs : MemFS) : result string :=
  Ok ("/" +:+ join_sep (cwd fs)).

(** An open file: the name it was opened under and the object it denotes. *)
Definition mem_File : Type := string * list string.

Definition mem_Open (name : string) (fs : MemFS) : result mem_File :=
  match resolve fs true name with
  | Found p =>
      match tree fs !! p with
      | Some _ => Ok (name, p)
      | None => Err (PathError "open" name ENOENT)
      end
  | Missing _ => Err (PathError "open" name ENOENT)
  | Lost e => Err (PathError "open" name e)
  end.

(** Insertion of an entry in a list of entries sorted by name. *)
Fixpoint insert_by_name (x : FileInfo) (l : list FileInfo) : list FileInfo :=
  match l with
  | [] => [x]
  | y :: l' =>
      if String.leb (fi_Name x) (fi_Name y) then x :: l
      else y :: insert_by_name x l'
  end.

Definition entries_of (fs : MemFS) (p : list string) : list FileInfo :=
  foldr insert_by_name []
    (omap (fun kv =>
             match under p (fst kv) with
             | Some [n] => Some (info_of fs n (fst kv) (snd kv))
             | _ => None
             end)
       (map_to_list (tree fs))).

Definition mem_ReadDir (name : string) (fs : MemFS) : result (list FileInfo) :=
  match resolve fs true name with
  | Found p =>
      match i_node <$> tree fs !! p with
      | Some (NDir _) => Ok (entries_of fs p)
      | Some _ => Err (PathError "readdirent" name ENOTDIR)
      | None => Err (PathError "open" name ENOENT)
      end
  | Missing _ => Err (PathError "open" name ENOENT)
  | Lost e => Err (PathError "open" name e)
  end.

(** The owner may add entries to and remove entries from [dir]. *)
Definition writable (t : gmap (list string) inode) (dir : list string) : bool :=
  match i_node <$> t !! dir with
  | Some (NDir perm) => Z.testbit perm 7
  | _ => false
  end.

Definition with_tree (fs : MemFS) (t : gmap (list string) inode) : MemFS :=
  {| tree := t; cwd := cwd fs; mounts := mounts fs; umask := umask fs;
     next_ino := next_ino fs |}.

(** A new object at [p], with a fresh inode number. *)
Definition add_node (fs : MemFS) (p : list string) (n : node) : MemFS :=
  {| tree := <[p := {| i_ino := next_ino fs; i_node := n |}]> (tree fs);
     cwd := cwd fs; mounts := mounts fs; umask := umask fs;
     next_ino := next_ino fs + 1 |}.

(** The object at [p] replaced, its inode number kept. *)
Definition set_node (fs : MemFS) (p : list string) (i : inode) (n : node)
  : MemFS :=
  with_tree fs (<[p := {| i_ino := i_ino i; i_node := n |}]> (tree fs)).

Definition new_perm (fs : MemFS) (perm : Z) : Z :=
  Z.land (Z.land perm ModePerm) (Z.lxor ModePerm (Z.land (umask fs) ModePerm)).

(** [os.Create]: open for writing, creating the file (mode 0666 before
    umask) or truncating it. *)
Definition mem_Create (name : string) (fs : MemFS) : result mem_File * MemFS :=
  match resolve fs true name with
  | Found p =>
      match tree fs !! p with
      | Some i =>
          match i_node i with
          | NFile perm _ => (Ok (name, p), set_node fs p i (NFile perm []))
          | NDir _ => (Err (PathError "open" name EISDIR), fs)
          | NLink _ => (Err (PathError "open" name ELOOP), fs)
          | NFifo _ => (Ok (name, p), fs)
          end
      | None => (Err (PathError "open" name ENOENT), fs)
      end
  | Missing p =>
      if writable (tree fs) (removelast p)
      then (Ok (name, p), add_node fs p (NFile (new_perm fs 438) []))
      else (Err (PathError "open" name EACCES), fs)
  | Lost e => (Err (PathError "open" name e), fs)
  end.

(** [io.Copy]: read the source to its end, write at the start of the
    destination; a FIFO reads as empty and swallows what is written. *)
Definition mem_Copy (fdst fsrc : mem_File) (fs : MemFS)
  : (Z * option error) * MemFS :=
  match i_node <$> tree fs !! snd fsrc with
  | Some (NFile _ data) =>
      match tree fs !! snd fdst with
      | Some i =>
          match i_node i with
          | NFile perm old =>
              ((Z.of_nat (length data), None),
               set_node fs (snd fdst) i
                 (NFile perm (data ++ drop (length data) old)%list))
          | NFifo _ => ((Z.of_nat (length data), None), fs)
          | _ => ((0, Some (PathError "write" (fst fdst) EINVAL)), fs)
          end
      | None => ((0, Some (PathError "write" (fst fdst) EIO)), fs)
      end
  | Some (NDir _) => ((0, Some (PathError "read" (fst fsrc) EISDIR)), fs)
  | Some (NFifo _) => ((0, None), fs)
  | Some (NLink _) => ((0, Some (PathError "read" (fst fsrc) EINVAL)), fs)
  | None => ((0, Some (PathError "read" (fst fsrc) EIO)), fs)
  end.

Definition mem_Symlink (oldname newname : string) (fs : MemFS)
  : option error * MemFS :=
  if String.eqb oldname ""
  then (Some (LinkError "symlink" oldname newname ENOENT), fs)
  else
    match resolve fs false newname with
    | Found _ => (Some (LinkError "symlink" oldname newname EEXIST), fs)
    | Missing p =>
        if writable (tree fs) (removelast p)
        then (None, add_node fs p (NLink oldname))
        else (Some (LinkError "symlink" oldname newname EACCES), fs)
    | Lost e => (Some (LinkError "symlink" oldname newname e), fs)
    end.

Definition mem_Chmod (name : string) (mode : FileMode) (fs : MemFS)
  : option error * MemFS :=
  match resolve fs true name with
  | Found p =>
      match tree fs !! p with
      | Some i =>
          let perm := Z.land mode ModePerm in
          match i_node i with
          | NFile _ data => (None, set_node fs p i (NFile perm data))
          | NDir _ => (None, set_node fs p i (NDir perm))
          | NFifo _ => (None, set_node fs p i (NFifo perm))
          | NLink _ => (Some (PathError "chmod" name ELOOP), fs)
          end
      | None => (Some (PathError "chmod" name ENOENT), fs)
      end
  | Missing _ => (Some (PathError "chmod" name ENOENT), fs)
  | Lost e => (Some (PathError "chmod" name e), fs)
  end.

(** The elements of a split path without the trailing empty ones. *)
Fixpoint trim_empty (l : list string) : list string :=
  match l with
  | [] => []
  | x :: xs =>
      match trim_empty xs with
      | [] => if String.eqb x "" then [] else [x]
      | r => x :: r
      end
  end.

Definition mem_Mkdir (name : string) (perm : FileMode) (fs : MemFS)
  : option error * MemFS :=
  if String.eqb name "" then (Some (PathError "mkdir" name ENOENT), fs)
  else
    match walk walk_fuel (tree fs) false
            (if filepath_IsAbs name then [] else cwd fs)
            (trim_empty (split_sep name)) with
    | Found _ => (Some (PathError "mkdir" name EEXIST), fs)
    | Missing p =>
        if writable (tree fs) (removelast p)
        then (None, add_node fs p (NDir (new_perm fs perm)))
        else (Some (PathError "mkdir" name EACCES), fs)
    | Lost e => (Some (PathError "mkdir" name e), fs)
    end.

(** [os.MkdirAll], after its Go source: nothing to do for a directory,
    else make the parent, then the directory itself.  Each call is on a
    shorter path; [n] bounds the calls. *)
Fixpoint MkdirAll_n (n : nat) (path : string) (perm : FileMode) (fs : MemFS)
  : option error * MemFS :=
  match mem_Stat path fs with
  | Ok dir =>
      if IsDir dir then (None, fs)
      else (Some (PathError "mkdir" path ENOTDIR), fs)
  | Err _ =>
      let parent := join_sep (removelast (trim_empty (split_sep path))) in
      let r :=
        if String.eqb parent "" then (None, fs)
        else match n with
             | O => (Some (PathError "mkdir" path EINVAL), fs)
             | S n' => MkdirAll_n n' parent perm fs
             end in
      match r with
      | (Some err, fs1) => (Some err, fs1)
      | (None, fs1) =>
          match mem_Mkdir path perm fs1 with
          | (Some err, fs2) =>
              match mem_Lstat path fs2 with
              | Ok dir => if IsDir dir then (None, fs2) else (Some err, fs2)
              | Err _ => (Some err, fs2)
              end
          | (None, fs2) => (None, fs2)
          end
      end
  end.

Definition mem_MkdirAll (path : string) (perm : FileMode) (fs : MemFS)
  : option error * MemFS :=
  MkdirAll_n (String.length path) path perm fs.

Definition is_dir_node (o : option inode) : bool :=
  match i_node <$> o with Some (NDir _) => true | _ => false end.

Definition has_children (t : gmap (list string) inode) (p : list string)
  : bool :=
  existsb (fun kv => match under p (fst kv) with
                     | Some (_ :: _) => true
                     | _ => false
                     end) (map_to_list t).

Definition rekey (po pn k : list string) : list string :=
  match under po k with
  | Some r => (pn ++ r)%list
  | None => k
  end.

(** The subtree at [po] moved to [pn], replacing what was at [pn]. *)
Definition move_tree (po pn : list string) (t : gmap (list string) inode)
  : gmap (list string) inode :=
  list_to_map
    (map (fun kv => (rekey po pn (fst kv), snd kv))
       (map_to_list (delete pn t))).

Definition mem_Rename (oldname newname : string) (fs : MemFS)
  : option error * MemFS :=
  let fail e := (Some (LinkError "rename" oldname newname e), fs) in
  let t := tree fs in
  match resolve fs false oldname with
  | Lost e => fail e
  | Missing _ => fail ENOENT
  | Found po =>
      let go (pn : list string) (target : option inode) :=
        if is_nil po || bool_decide (po ∈ mounts fs) then fail EBUSY
        else if negb (dev_of fs po =? dev_of fs pn) then fail EXDEV
        else if bool_decide (po = pn) then (None, fs)
        else if is_some (under po pn) then fail EINVAL
        else if is_dir_node (t !! po) && is_some target
                && negb (is_dir_node target) then fail ENOTDIR
        else if negb (is_dir_node (t !! po)) && is_dir_node target
        then fail EISDIR
        else if has_children t pn then fail ENOTEMPTY
        else if negb (writable t (removelast po)
                      && writable t (removelast pn)) then fail EACCES
        else (None, with_tree fs (move_tree po pn t)) in
      match resolve fs false newname with
      | Lost e => fail e
      | Missing pn => go pn None
      | Found pn => go pn (t !! pn)
      end
  end.

Definition mem_Remove (name : string) (fs : MemFS) : option error * MemFS :=
  let fail e := (Some (PathError "remove" name e), fs) in
  match resolve fs false name with
  | Lost e => fail e
  | Missing _ => fail ENOENT
  | Found p =>
      if is_nil p then fail EBUSY
      else if has_children (tree fs) p then fail ENOTEMPTY
      else if negb (writable (tree fs) (removelast p)) then fail EACCES
      else (None, with_tree fs (delete p (tree fs)))
  end.

(** The object at [q] and everything below it can be unlinked: each of
    them sits in a directory the owner may write. *)
Definition removable (t : gmap (list string) inode) (q : list string) : bool :=
  negb (is_nil q)
  && forallb (fun kv => match under q (fst kv) with
                        | Some _ => writable t (removelast (fst kv))
                        | None => true
                        end) (map_to_list t).

(** [os.RemoveAll]: remove the path and all below it; no error when the
    path does not exist; what cannot be unlinked stays. *)
Definition mem_RemoveAll (path : string) (fs : MemFS) : option error * MemFS :=
  if String.eqb path "" then (None, fs)
  else
    match resolve fs false path with
    | Lost ENOENT => (None, fs)
    | Lost e => (Some (PathError "unlinkat" path e), fs)
    | Missing _ => (None, fs)
    | Found p =>
        let t := tree fs in
        let t' :=
          filter (fun kv => Is_true
                    (negb (is_some (under p (fst kv))
                           && removable t (fst kv)))) t in
        (if is_some (t' !! p)
         then Some (PathError "unlinkat" path EACCES) else None,
         with_tree fs t')
    end.

#[export] Instance MemOS : OsApi := {|
  World := MemFS;
  File := mem_File;
  os_Stat := mem_Stat;
  os_Lstat := mem_Lstat;
  os_Readlink := mem_Readlink;
  os_Getwd := mem_Getwd;
  os_Open := mem_Open;
  ioutil_ReadDir := mem_ReadDir;
  os_Create := mem_Create;
  io_Copy := mem_Copy;
  os_Symlink := mem_Symlink;
  os_Chmod := mem_Chmod;
  os_MkdirAll := mem_MkdirAll;
  os_Rename := mem_Rename;
  os_Remove := mem_Remove;
  os_RemoveAll := mem_RemoveAll
|}.

(** [ioutil.ReadFile] *)
Definition mem_ReadFile (name : string) (fs : MemFS) : result (list byte) :=
  match resolve fs true name with
  | Found p =>
      match i_node <$> tree fs !! p with
      | Some (NFile _ data) => Ok data
      | Some (NDir _) => Err (PathError "read" name EISDIR)
      | Some (NFifo _) => Ok []
      | Some (NLink _) => Err (PathError "open" name ELOOP)
      | None => Err (PathError "open" name ENOENT)
      end
  | Missing _ => Err (PathError "open" name ENOENT)
  | Lost e => Err (PathError "open" name e)
  end.

(** A file system from the list of its objects; the root comes first. *)
Definition mkfs (objs : list (list string * node)) : MemFS :=
  {| tree := list_to_map
               (imap (fun i pn => (fst pn, {| i_ino := Z.of_nat i + 1;
                                              i_node := snd pn |})) objs);
     cwd := [];
     mounts := [];
     umask := 18;
     next_ino := Z.of_nat (length objs) + 1 |}.

Definition bytes (s : string) : list byte := String.list_byte_of_string s.

(** Every object but the root sits in a directory. *)
Definition wf_tree (t : gmap (list string) inode) : bool :=
  forallb (fun kv => is_nil (fst kv)
                     || is_dir_node (t !! removelast (fst kv)))
    (map_to_list t).


(** ** Test trees *)

(** [/s] holds a file and a link to it. *)
Definition tree_link : MemFS :=
  mkfs [ ([], NDir 493);
         (["s"], NDir 493);
         (["s"; "f"], NFile 420 (bytes "hello"));
         (["s"; "l"], NLink "/s/f") ].

(** [/s] holds a link to a path that does not exist. *)
Definition tree_dangling : MemFS :=
  mkfs [ ([], NDir 493);
         (["s"], NDir 493);
         (["s"; "k"], NLink "/nowhere") ].

Definition follow_links_skip_dangling : CopyTreeOptions :=
  {| Symlinks := false; IgnoreDanglingSymlinks := true;
     CopyFunction := Copy; Ignore := None |}.

(** [/a] holds a FIFO and a file; [/mnt] is another device. *)
Definition tree_mounted : MemFS :=
  {| tree := tree (mkfs [ ([], NDir 493);
                          (["a"], NDir 493);
                          (["a"; "p"], NFifo 420);
                          (["a"; "z"], NFile 420 (bytes "data"));
                          (["mnt"], NDir 493) ]);
     cwd := []; mounts := [["mnt"]]; umask := 18; next_ino := 6 |}.

(** [/s] is a read-only directory (mode 0555) holding a link. *)
Definition tree_readonly : MemFS :=
  mkfs [ ([], NDir 493);
         (["s"], NDir 365);
         (["s"; "l"], NLink "/t");
         (["t"], NFile 420 (bytes "x")) ].

Definition keep_links : CopyTreeOptions :=
  {| Symlinks := true; IgnoreDanglingSymlinks := false;
     CopyFunction := Copy; Ignore := None |}.

(** The same tree once [CopyTree] has made the destination [/d], with the
    mode of [/s]. *)
Definition tree_readonly_dst : MemFS :=
  snd (mem_MkdirAll "/d" (Z.lor ModeDir 365) tree_readonly).

(** The entry of [/s/l] as [ioutil.ReadDir] lists it. *)
Definition entry_l : FileInfo :=
  {| fi_Name := "l"; fi_Size := 2; fi_Mode := Z.lor ModeSymlink ModePerm;
     fi_Dev := 0; fi_Ino := 3 |}.

(** A file [/a], a directory [/d] that already holds an [a], a link [/l]
    to [/a] and a dangling link [/k]. *)
Definition tree_flat : MemFS :=
  mkfs [ ([], NDir 493);
         (["a"], NFile 420 (bytes "new"));
         (["d"], NDir 493);
         (["d"; "a"], NFile 420 (bytes "old"));
         (["l"], NLink "/a");
         (["k"], NLink "/nowhere") ].

(** A link [/l] to the file [/t]; [/mnt] is another device. *)
Definition tree_mounted_link : MemFS :=
  {| tree := tree (mkfs [ ([], NDir 493);
                          (["l"], NLink "/t");
                          (["t"], NFile 420 (bytes "x"));
                          (["mnt"], NDir 493) ]);
     cwd := []; mounts := [["mnt"]]; umask := 18; next_ino := 5 |}.

(** A file [/a] and a directory [/d] that holds a dangling link [a]. *)
Definition tree_stale_link : MemFS :=
  mkfs [ ([], NDir 493);
         (["a"], NFile 420 (bytes "new"));
         (["d"], NDir 493);
         (["d"; "a"], NLink "/nowhere") ].

(** A directory [/s] with a file [f], a directory [/d] with a file [f] of
    its own, and no [/x]. *)
Definition tree_two_dirs : MemFS :=
  mkfs [ ([], NDir 493);
         (["s"], NDir 493);
         (["s"; "f"], NFile 420 (bytes "new"));
         (["d"], NDir 493);
         (["d"; "f"], NFile 420 (bytes "old")) ].

(** What a call returned and the world it left. *)
Definition returned {W A} (o : outcome W A) : option A :=
  match o with Ret a _ => Some a | _ => None end.

Definition world_after {W A} (o : outcome W A) : option W :=
  match o with Ret _ w => Some w | Panic w => Some w | Diverge => None end.

(** * Properties over every operating system *)

Section Properties.

Context {OS : OsApi}.

Lemma samefile_no_dst (src dst : string) (w : World) (e : error) :
  os_Stat dst w = Err e -> samefile src dst w = false.
Proof.
  intros Hdst. unfold samefile. rewrite Hdst. simpl.
  destruct (go_val (os_Stat src w)); reflexivity.
Qed.

(** C6, amended. A directory [src] and a destination that [os.Open] does
    not report as missing: [CopyTree] returns [AlreadyExistsError dst],
    whatever [dst] is, and leaves the world as it was.  A destination that
    [os.Open] reports as missing, as it does a dangling symbolic link, is
    not covered. *)
Theorem CopyTree_dst_exists :
  forall (fuel : nat) (src dst : string) (options : option CopyTreeOptions)
         (w : World) (srcFileInfo : FileInfo),
    os_Stat src w = Ok srcFileInfo ->
    IsDir srcFileInfo = true ->
    os_IsNotExist (go_err (os_Open dst w)) = false ->
    CopyTree (S fuel) src dst options w
    = Ret (Some (AlreadyExistsError dst)) w.
Proof.
  intros fuel src dst options w srcFileInfo Hsrc Hdir Hdst.
  simpl. rewrite Hsrc, Hdir, Hdst. reflexivity.
Qed.

(** C7, amended. [dst] is a directory, not the same file as [src], and
    [os.Stat] finds something at [dst/basename(src)]: [Move] returns
    [AlreadyExistsError] and the world is the one it was called in.  A
    dangling symbolic link at [dst/basename(src)], which [os.Stat] does not
    find, is not covered. *)
Theorem Move_real_dst_exists :
  forall (fuel : nat) (src dst : string) (options : option MoveOptions)
         (w : World) (dstInfo realInfo : FileInfo),
    os_Stat dst w = Ok dstInfo ->
    IsDir dstInfo = true ->
    samefile src dst w = false ->
    os_Stat (path_Join dst (path_Base src)) w = Ok realInfo ->
    Move fuel src dst options w = Ret ("", Some (AlreadyExistsError dst)) w.
Proof.
  intros fuel src dst options w dstInfo realInfo Hdst Hdir Hsame Hreal.
  unfold Move, isDirectory. rewrite Hdst. simpl.
  rewrite Hdir, Hsame, Hreal. reflexivity.
Qed.

(** C10. [src] is a symbolic link that [os.Stat] cannot follow and [dst]
    exists and is not a symbolic link: [CopyMode] panics. *)
Theorem CopyMode_dangling_src_panics :
  forall (src dst : string) (followSymlinks : bool) (w : World)
         (srcStat dstStat : FileInfo) (e : error),
    os_Lstat src w = Ok srcStat ->
    IsSymlink srcStat = true ->
    os_Stat src w = Err e ->
    os_Lstat dst w = Ok dstStat ->
    IsSymlink dstStat = false ->
    CopyMode src dst followSymlinks w = Panic w.
Proof.
  intros src dst followSymlinks w srcStat dstStat e Hl Hsym Hs Hd Hnot.
  unfold CopyMode. rewrite Hl, Hd, Hsym, Hnot, Hs.
  rewrite andb_false_r. reflexivity.
Qed.

(** The same panic with [followSymlinks] set, whatever [dst] is. *)
Lemma CopyMode_follow_dangling_src_panics :
  forall (src dst : string) (w : World) (srcStat dstStat : FileInfo)
         (e : error),
    os_Lstat src w = Ok srcStat ->
    os_Stat src w = Err e ->
    os_Lstat dst w = Ok dstStat ->
    CopyMode src dst true w = Panic w.
Proof.
  intros src dst w srcStat dstStat e Hl Hs Hd.
  unfold CopyMode. rewrite Hl, Hd, Hs. reflexivity.
Qed.

(** [CopyMode] returns in every case but that one. *)
Lemma CopyMode_returns_or_panics :
  forall (src dst : string) (followSymlinks : bool) (w : World),
    (exists r w', CopyMode src dst followSymlinks w = Ret r w')
    \/ (CopyMode src dst followSymlinks w = Panic w
        /\ is_some (go_err (os_Stat src w)) = true).
Proof.
  intros src dst followSymlinks w. unfold CopyMode.
  destruct (os_Lstat src w); [|left; eauto].
  destruct (os_Lstat dst w); [|left; eauto].
  destruct (negb followSymlinks && IsSymlink a && IsSymlink a0);
    [left; eauto|].
  destruct (os_Stat src w) eqn:Hs; simpl.
  - left. destruct (os_Chmod dst (fi_Mode a1) w). eauto.
  - right. split; reflexivity.
Qed.

(** *** The size check of [CopyFile] *)



(** *** [destinsrc] *)

Lemma HasSuffix_app_sep (a : string) :
  strings_HasSuffix (a +:+ "/") "/" = true.
Proof.
  unfold strings_HasSuffix.
  assert (Hlen : String.length (a +:+ "/") = S (String.length a)).
  { induction a as [|c a IH]; simpl; [reflexivity | now rewrite IH]. }
  rewrite Hlen. simpl String.length.
  replace (S (String.length a) - 1)%nat with (String.length a) by lia.
  replace (1 <=? S (String.length a))%nat with true
    by (symmetry; apply Nat.leb_le; lia).
  simpl. apply String.eqb_eq. clear Hlen.
  induction a as [|c a IH]; simpl; [reflexivity | exact IH].
Qed.

Lemma not_prefix_app_sep (a : string) : String.prefix (a +:+ "/") a = false.
Proof.
  induction a as [|c a IH]; simpl; [reflexivity|].
  destruct (ascii_dec c c); [exact IH | reflexivity].
Qed.

(** The separator is never appended to [dst]: the second test is again on
    [src], which by then ends with it. *)
Lemma destinsrc_unterminated_dst :
  forall (src dst a b : string) (w : World),
    filepath_Abs src w = Ok a ->
    filepath_Abs dst w = Ok b ->
    destinsrc src dst w
    = (strings_HasPrefix b
         (if strings_HasSuffix a "/" then a else a +:+ "/"), None).
Proof.
  intros src dst a b w Ha Hb. unfold destinsrc, os_PathSeparator.
  rewrite Ha, Hb.
  destruct (strings_HasSuffix a "/") eqn:Hs; simpl.
  - rewrite Hs. reflexivity.
  - rewrite HasSuffix_app_sep. reflexivity.
Qed.

(** C5 (what the code does). A path whose absolute form does not end with
    the separator, that is every path but the root, is not found inside
    itself. *)
Theorem destinsrc_self_false :
  forall (p a : string) (w : World),
    filepath_Abs p w = Ok a ->
    strings_HasSuffix a os_PathSeparator = false ->
    destinsrc p p w = (false, None).
Proof.
  intros p a w Ha Hs. unfold os_PathSeparator in Hs.
  rewrite (destinsrc_unterminated_dst p p a a w Ha Ha), Hs.
  unfold strings_HasPrefix. rewrite not_prefix_app_sep. reflexivity.
Qed.

(** *** Errors that are dropped *)

(** C4 (what the code does). With [Symlinks] set, what [os.Symlink] returns
    for a link entry is not looked at: the loop goes on with the next
    entries, and returns nil when there are none. *)
Theorem CopyTree_entries_symlink_error_dropped :
  forall (rec : string -> string -> M (option error)) (src dst : string)
         (options : CopyTreeOptions) (ignoredNames : list string)
         (entry : FileInfo) (rest : list FileInfo) (w w1 : World)
         (entryFileInfo : FileInfo) (linkTo : string) (err : error),
    stringInSlice (fi_Name entry) ignoredNames = false ->
    os_Lstat (filepath_Join src (fi_Name entry)) w = Ok entryFileInfo ->
    IsSymlink entryFileInfo = true ->
    os_Readlink (filepath_Join src (fi_Name entry)) w = Ok linkTo ->
    Symlinks options = true ->
    os_Symlink linkTo (filepath_Join dst (fi_Name entry)) w = (Some err, w1) ->
    CopyTree_entries rec src dst options ignoredNames (entry :: rest) w
    = CopyTree_entries rec src dst options ignoredNames rest w1.
Proof.
  intros rec src dst options ignoredNames entry rest w w1 entryFileInfo
         linkTo err Hin Hl Hsym Hr Hopt Hs.
  simpl. rewrite Hin, Hl, Hsym, Hr, Hopt, Hs. reflexivity.
Qed.

(** The other child operations stop the loop with their error. *)
Lemma CopyTree_entries_lstat_error :
  forall rec src dst options ignoredNames entry rest (w : World) err,
    stringInSlice (fi_Name entry) ignoredNames = false ->
    os_Lstat (filepath_Join src (fi_Name entry)) w = Err err ->
    CopyTree_entries rec src dst options ignoredNames (entry :: rest) w
    = Ret (Some err) w.
Proof.
  intros rec src dst options ignoredNames entry rest w err Hin Hl.
  simpl. rewrite Hin, Hl. reflexivity.
Qed.

Lemma CopyTree_entries_subdir_error :
  forall rec src dst options ignoredNames entry rest (w w1 : World)
         entryFileInfo err,
    stringInSlice (fi_Name entry) ignoredNames = false ->
    os_Lstat (filepath_Join src (fi_Name entry)) w = Ok entryFileInfo ->
    IsSymlink entryFileInfo = false ->
    IsDir entryFileInfo = true ->
    rec (filepath_Join src (fi_Name entry))
        (filepath_Join dst (fi_Name entry)) w = Ret (Some err) w1 ->
    CopyTree_entries rec src dst options ignoredNames (entry :: rest) w
    = Ret (Some err) w1.
Proof.
  intros rec src dst options ignoredNames entry rest w w1 entryFileInfo err
         Hin Hl Hsym Hdir Hrec.
  simpl. rewrite Hin, Hl, Hsym, Hdir. unfold bind. rewrite Hrec. reflexivity.
Qed.

Lemma CopyTree_entries_file_error :
  forall rec src dst options ignoredNames entry rest (w w1 : World)
         entryFileInfo p err,
    stringInSlice (fi_Name entry) ignoredNames = false ->
    os_Lstat (filepath_Join src (fi_Name entry)) w = Ok entryFileInfo ->
    IsSymlink entryFileInfo = false ->
    IsDir entryFileInfo = false ->
    CopyFunction options (filepath_Join src (fi_Name entry))
      (filepath_Join dst (fi_Name entry)) false w = Ret (p, Some err) w1 ->
    CopyTree_entries rec src dst options ignoredNames (entry :: rest) w
    = Ret (Some err) w1.
Proof.
  intros rec src dst options ignoredNames entry rest w w1 entryFileInfo p err
         Hin Hl Hsym Hdir Hcp.
  simpl. rewrite Hin, Hl, Hsym, Hdir. unfold bind. rewrite Hcp. reflexivity.
Qed.

(** C3 (what the code does). In the fallback of [Move] for a directory,
    the error of [CopyTree] and the result of [os.RemoveAll] are not looked
    at: [Move] returns the destination and a nil error. *)
Theorem Move_directory_fallback_errors_dropped :
  forall (fuel : nat) (src dst real_dst : string)
         (options : option MoveOptions) (w w1 w2 w3 : World)
         (e err : error) (srcStat srcInfo : FileInfo) (rm : option error),
    (fst (isDirectory dst w) = false /\ real_dst = dst
     \/ fst (isDirectory dst w) = true /\ samefile src dst w = false
        /\ real_dst = path_Join dst (path_Base src)
        /\ is_some (go_err (os_Stat real_dst w)) = true) ->
    os_Rename src real_dst w = (Some e, w1) ->
    os_Lstat src w1 = Ok srcStat ->
    IsSymlink srcStat = false ->
    os_Stat src w1 = Ok srcInfo ->
    IsDir srcInfo = true ->
    destinsrc src dst w1 = (false, None) ->
    CopyTree fuel src real_dst
      (Some {| Symlinks := true; IgnoreDanglingSymlinks := false;
               Ignore := None; CopyFunction := Copy |}) w1
    = Ret (Some err) w2 ->
    os_RemoveAll src w2 = (rm, w3) ->
    Move fuel src dst options w = Ret (real_dst, None) w3.
Proof.
  intros fuel src dst real_dst options w w1 w2 w3 e err srcStat srcInfo rm
         Hreal Hren Hl Hsym Hst Hdir Hin Hcp Hrm.
  assert (Hto : forall o, Move_to fuel src dst real_dst o w
                          = Ret (real_dst, None) w3).
  { intros o. unfold Move_to, isDirectory.
    rewrite Hren, Hl, Hsym, Hst. simpl. rewrite Hdir, Hin.
    unfold bind. rewrite Hcp, Hrm. reflexivity. }
  unfold Move.
  destruct Hreal as [[Hnd ->] | (Hd & Hsame & -> & Hmiss)].
  - rewrite Hnd. apply Hto.
  - rewrite Hd, Hsame.
    destruct (os_Stat (path_Join dst (path_Base src)) w);
      [discriminate Hmiss | apply Hto].
Qed.

End Properties.

(** * Properties of the in-memory file system *)

Section Walk.

Implicit Types (t : gmap (list string) inode) (cur comps d p : list string).

Lemma walk_nil n t f cur : walk n t f cur [] = Found cur.
Proof. destruct n; reflexivity. Qed.

Lemma walk_cons n t f cur c rest :
  walk (S n) t f cur (c :: rest) =
  match i_node <$> t !! cur with
  | Some (NDir _) =>
      if String.eqb c "" || String.eqb c "."
      then walk n t f cur rest
      else if String.eqb c ".."
      then walk n t f (removelast cur) rest
      else
        match i_node <$> t !! (cur ++ [c])%list with
        | None => if is_nil rest then Missing (cur ++ [c])%list else Lost ENOENT
        | Some (NLink target) =>
            if f || negb (is_nil rest) then
              walk n t f (if filepath_IsAbs target then [] else cur)
                (split_sep target ++ rest)%list
            else Found (cur ++ [c])%list
        | Some _ => walk n t f (cur ++ [c])%list rest
        end
  | Some _ => Lost ENOTDIR
  | None => Lost ENOENT
  end.
Proof. reflexivity. Qed.

(** Nothing is at a path reported missing. *)
Lemma walk_Missing_None n t f cur comps d :
  walk n t f cur comps = Missing d -> t !! d = None.
Proof.
  revert cur comps. induction n as [|n IH]; intros cur [|c rest] H;
    try discriminate H.
  rewrite walk_cons in H.
  destruct (i_node <$> t !! cur) as [[]|]; try discriminate H.
  destruct (String.eqb c "" || String.eqb c "."); [eauto|].
  destruct (String.eqb c ".."); [eauto|].
  destruct (i_node <$> t !! (cur ++ [c])%list) as [[]|] eqn:Hp; eauto.
  - destruct (f || negb (is_nil rest)); [eauto | discriminate H].
  - destruct (is_nil rest); [|discriminate H].
    injection H as <-. now apply fmap_None in Hp.
Qed.

(** Following the last link changes nothing unless the walk ended on one. *)
Lemma walk_follow n t cur comps r :
  walk n t false cur comps = r ->
  (forall p tg, r = Found p -> i_node <$> t !! p <> Some (NLink tg)) ->
  walk n t true cur comps = r.
Proof.
  revert cur comps. induction n as [|n IH]; intros cur [|c rest] H Hr;
    try exact H.
  rewrite walk_cons in H. rewrite walk_cons.
  destruct (i_node <$> t !! cur) as [[]|]; try exact H.
  destruct (String.eqb c "" || String.eqb c "."); [eauto|].
  destruct (String.eqb c ".."); [eauto|].
  destruct (i_node <$> t !! (cur ++ [c])%list) as [[]|] eqn:Hp; eauto.
  destruct (is_nil rest); simpl in *; [|eauto].
  exfalso. eapply Hr; [symmetry; exact H | exact Hp].
Qed.

Lemma walk_shape n t t' f cur comps :
  (forall k, shape <$> t' !! k = shape <$> t !! k) ->
  walk n t' f cur comps = walk n t f cur comps.
Proof.
  intros Hs. revert cur comps.
  induction n as [|n IH]; intros cur [|c rest]; try reflexivity.
  rewrite !walk_cons.
  assert (Hk : forall k,
             match i_node <$> t' !! k, i_node <$> t !! k with
             | Some (NFile _ _), Some (NFile _ _) => True
             | Some (NDir _), Some (NDir _) => True
             | Some (NLink a), Some (NLink b) => a = b
             | Some (NFifo _), Some (NFifo _) => True
             | None, None => True
             | _, _ => False
             end).
  { intros k. specialize (Hs k). unfold shape in Hs.
    destruct (t' !! k) as [[? []]|], (t !! k) as [[? []]|];
      simpl in *; try exact I; congruence. }
  pose proof (Hk cur) as Hc.
  destruct (i_node <$> t' !! cur) as [[]|], (i_node <$> t !! cur) as [[]|];
    try contradiction; try reflexivity.
  destruct (String.eqb c "" || String.eqb c "."); [apply IH|].
  destruct (String.eqb c ".."); [apply IH|].
  pose proof (Hk (cur ++ [c])%list) as Hp.
  destruct (i_node <$> t' !! (cur ++ [c])%list) as [[]|],
           (i_node <$> t !! (cur ++ [c])%list) as [[]|];
    try contradiction; try reflexivity; try apply IH.
  subst. destruct (f || negb (is_nil rest)); [apply IH | reflexivity].
Qed.


(** A path reported missing is found once an object is put there. *)
Lemma walk_insert_Missing n t f cur comps d i :
  walk n t f cur comps = Missing d ->
  f = false \/ (forall tg, i_node i <> NLink tg) ->
  walk n (<[d := i]> t) f cur comps = Found d.
Proof.
  intros H Hi. pose proof (walk_Missing_None _ _ _ _ _ _ H) as Hd.
  revert cur comps H.
  induction n as [|n IH]; intros cur [|c rest] H; try discriminate H.
  rewrite walk_cons in H. rewrite walk_cons.
  assert (Hne : forall k, is_Some (i_node <$> t !! k) ->
                          <[d := i]> t !! k = t !! k).
  { intros k [x Hk]. apply lookup_insert_ne. intros ->.
    rewrite Hd in Hk. discriminate Hk. }
  destruct (i_node <$> t !! cur) as [[]|] eqn:Hc; try discriminate H.
  rewrite Hne, Hc by (rewrite Hc; eauto).
  destruct (String.eqb c "" || String.eqb c "."); [eauto|].
  destruct (String.eqb c ".."); [eauto|].
  destruct (i_node <$> t !! (cur ++ [c])%list) as [nd|] eqn:Hp.
  - rewrite Hne, Hp by (rewrite Hp; eauto).
    destruct nd; eauto.
    destruct (f || negb (is_nil rest)); [eauto | discriminate H].
  - destruct rest as [|c' rest']; [|discriminate H].
    simpl in H. injection H as <-.
    rewrite lookup_insert_eq. simpl.
    destruct (i_node i) eqn:Hn; try apply walk_nil.
    destruct Hi as [-> | Hi]; [reflexivity | now destruct (Hi target)].
Qed.

End Walk.

(** Unfold the operations of the interface at the in-memory instance. *)
Ltac mem_os :=
  cbn [os_Stat os_Lstat os_Readlink os_Getwd os_Open ioutil_ReadDir
       os_Create io_Copy os_Symlink os_Chmod os_MkdirAll os_Rename
       os_Remove os_RemoveAll MemOS] in *.

Section MemFS_facts.

Implicit Types (fs : MemFS) (src dst name : string).

Lemma land_perm_bit (x m : Z) :
  Z.land ModePerm m = 0 -> Z.land (Z.land x ModePerm) m = 0.
Proof. intros H. now rewrite <- Z.land_assoc, H, Z.land_0_r. Qed.

Lemma IsSymlink_info fs name p i :
  IsSymlink (info_of fs name p i)
  = match i_node i with NLink _ => true | _ => false end.
Proof.
  unfold IsSymlink, info_of. simpl. destruct (i_node i); simpl.
  - now rewrite land_perm_bit.
  - now rewrite Z.land_lor_distr_l, land_perm_bit.
  - reflexivity.
  - now rewrite Z.land_lor_distr_l, land_perm_bit.
Qed.

Lemma specialfile_info fs name p i :
  specialfile (info_of fs name p i)
  = match i_node i with NFifo _ => true | _ => false end.
Proof.
  unfold specialfile, info_of. simpl. destruct (i_node i); simpl.
  - now rewrite land_perm_bit.
  - now rewrite Z.land_lor_distr_l, land_perm_bit.
  - reflexivity.
  - now rewrite Z.land_lor_distr_l, land_perm_bit.
Qed.

Lemma stat_with_Ok op follow name fs info :
  stat_with op follow name fs = Ok info ->
  exists p i, resolve fs follow name = Found p /\ tree fs !! p = Some i
              /\ info = info_of fs (filepath_Base name) p i.
Proof.
  unfold stat_with. intros H.
  destruct (resolve fs follow name) as [p| |]; try discriminate H.
  destruct (tree fs !! p) as [i|] eqn:Hp; try discriminate H.
  injection H as <-. eauto.
Qed.

Lemma resolve_follow fs name r :
  resolve fs false name = r ->
  (forall p tg, r = Found p -> i_node <$> tree fs !! p <> Some (NLink tg)) ->
  resolve fs true name = r.
Proof.
  unfold resolve. destruct (String.eqb name ""); [auto|]. apply walk_follow.
Qed.

Lemma resolve_add_node fs follow name d nd :
  resolve fs follow name = Missing d ->
  follow = false \/ (forall tg, nd <> NLink tg) ->
  resolve (add_node fs d nd) follow name = Found d.
Proof.
  unfold resolve. destruct (String.eqb name ""); [discriminate|].
  intros H Hn. simpl. now apply walk_insert_Missing.
Qed.


(** What [os.Stat] finds, [os.Open] opens. *)
Lemma Open_of_Stat fs name info :
  mem_Stat name fs = Ok info ->
  os_IsNotExist (go_err (mem_Open name fs)) = false.
Proof.
  intros H. destruct (stat_with_Ok _ _ _ _ _ H) as (p & i & Hr & Hp & _).
  unfold mem_Open. now rewrite Hr, Hp.
Qed.

(** On the in-memory file system, with existence as [os.Stat] reports it:
    [CopyTree] onto anything that exists is refused and changes nothing. *)
Lemma CopyTree_onto_existing fuel fs src dst options srcInfo dstInfo :
  mem_Stat src fs = Ok srcInfo ->
  IsDir srcInfo = true ->
  mem_Stat dst fs = Ok dstInfo ->
  CopyTree (S fuel) src dst options fs
  = Ret (Some (AlreadyExistsError dst)) fs.
Proof.
  intros Hsrc Hdir Hdst. simpl. mem_os.
  now rewrite Hsrc, Hdir, (Open_of_Stat _ _ _ Hdst).
Qed.

Lemma resolve_Ok_nonempty fs follow name p :
  resolve fs follow name = Found p -> String.eqb name "" = false.
Proof.
  unfold resolve. destruct (String.eqb name ""); [discriminate | reflexivity].
Qed.

(** C9, amended. [src] is a symbolic link, nothing is at [dst] and the
    directory of [dst] takes a new entry: [CopyFile] without
    [followSymlinks] returns nil, [dst] is then a symbolic link whose
    target is the string [src], and the new link is the only change to the
    file system. *)
Theorem CopyFile_nofollow_creates_link :
  forall (fs : MemFS) (src dst : string) (srcStat : FileInfo)
         (d : list string),
    mem_Lstat src fs = Ok srcStat ->
    IsSymlink srcStat = true ->
    resolve fs false dst = Missing d ->
    writable (tree fs) (removelast d) = true ->
    exists fs',
      CopyFile src dst false fs = Ret None fs'
      /\ mem_Readlink dst fs' = Ok src
      /\ tree fs !! d = None
      /\ tree fs'
         = <[d := {| i_ino := next_ino fs; i_node := NLink src |}]>
             (tree fs).
Proof.
  intros fs src dst srcStat d Hl Hsym Hd Hw.
  destruct (stat_with_Ok _ _ _ _ _ Hl) as (p & i & Hp & _ & ->).
  assert (Hmk : mem_Symlink src dst fs = (None, add_node fs d (NLink src))).
  { unfold mem_Symlink.
    now rewrite (resolve_Ok_nonempty _ _ _ _ Hp), Hd, Hw. }
  assert (Hst : mem_Stat dst fs = Err (PathError "stat" dst ENOENT)).
  { unfold mem_Stat, stat_with.
    rewrite (resolve_follow fs dst (Missing d) Hd); [reflexivity|].
    intros q tg Hq. discriminate Hq. }
  assert (Hsp : specialfile (info_of fs (filepath_Base src) p i) = false).
  { rewrite IsSymlink_info in Hsym. rewrite specialfile_info.
    destruct (i_node i); try discriminate Hsym; reflexivity. }
  exists (add_node fs d (NLink src)). split; [|split; [|split]].
  - unfold CopyFile.
    rewrite (@samefile_no_dst MemOS src dst fs _ Hst).
    mem_os. rewrite Hl, Hsp, Hst. simpl.
    rewrite Hsym. simpl. rewrite Hmk. reflexivity.
  - unfold mem_Readlink.
    rewrite (resolve_add_node fs false dst d (NLink src) Hd) by now left.
    simpl. now rewrite lookup_insert_eq.
  - unfold resolve in Hd. destruct (String.eqb dst ""); [discriminate|].
    eapply walk_Missing_None; exact Hd.
  - reflexivity.
Qed.

(** X20. When something is at [dst] already, no link is made: an error
    is returned and the file system is as it was. *)
Lemma CopyFile_nofollow_dst_taken fs src dst srcStat dstStat :
  mem_Lstat src fs = Ok srcStat ->
  IsSymlink srcStat = true ->
  mem_Lstat dst fs = Ok dstStat ->
  exists err, CopyFile src dst false fs = Ret (Some err) fs.
Proof.
  intros Hl Hsym Hdst.
  destruct (stat_with_Ok _ _ _ _ _ Hl) as (p & i & Hp & _ & _).
  destruct (stat_with_Ok _ _ _ _ _ Hdst) as (q & j & Hq & _ & _).
  unfold CopyFile. mem_os. rewrite Hl.
  destruct (@samefile MemOS src dst fs); [eauto|].
  destruct (specialfile srcStat); [eauto|].
  destruct (match mem_Stat dst fs with
            | Ok dstStat0 =>
                if specialfile dstStat0
                then Some (SpecialFileError dst dstStat0) else None
            | Err err =>
                if negb (os_IsNotExist (Some err)) then Some err else None
            end); [eauto|].
  rewrite Hsym. simpl. unfold mem_Symlink.
  rewrite (resolve_Ok_nonempty _ _ _ _ Hp), Hq. eauto.
Qed.





End MemFS_facts.


(** * Runs on the test trees *)

(** C1 (what the code does). [/s] holds the file [f] and the link [l] to
    it.  [CopyTree] with the default options, so with [Symlinks] false,
    returns nil, and [/d/l] is a symbolic link, to the path [/s/l] in the
    source tree: the copy function was called with [followSymlinks] false
    on the link itself. *)
Theorem CopyTree_follow_leaves_link :
  let r := CopyTree 2 "/s" "/d" None tree_link in
  returned r = Some None
  /\ (world_after r ≫= fun fs => go_val (mem_Readlink "/d/l" fs))
     = Some "/s/l"
  /\ IsSymlink <$> (world_after r ≫= fun fs => go_val (mem_Lstat "/d/l" fs))
     = Some true
  /\ (world_after r ≫= fun fs => go_val (mem_ReadFile "/d/f" fs))
     = Some (bytes "hello").
Proof. vm_compute. repeat split; reflexivity. Qed.

(** C2 (what the code does). [/s] holds a link [k] to a path that does not
    exist.  [CopyTree] with [Symlinks] and [IgnoreDanglingSymlinks] false
    returns nil, not an error, and leaves at [/d/k] a link to [/s/k]. *)
Theorem CopyTree_dangling_link_no_error :
  let r := CopyTree 2 "/s" "/d" None tree_dangling in
  go_err (mem_Stat "/nowhere" tree_dangling)
  = Some (PathError "stat" "/nowhere" ENOENT)
  /\ returned r = Some None
  /\ (world_after r ≫= fun fs => go_val (mem_Readlink "/d/k" fs))
     = Some "/s/k".
Proof. vm_compute. repeat split; reflexivity. Qed.

(** With [IgnoreDanglingSymlinks] set the link is skipped, as C2 says. *)
Lemma CopyTree_dangling_link_skipped :
  let r := CopyTree 2 "/s" "/d" (Some follow_links_skip_dangling)
             tree_dangling in
  returned r = Some None
  /\ (mem_Lstat "/d/k" <$> world_after r)
     = Some (Err (PathError "lstat" "/d/k" ENOENT))
  /\ IsDir <$> (world_after r ≫= fun fs => go_val (mem_Lstat "/d" fs))
     = Some true.
Proof. vm_compute. repeat split; reflexivity. Qed.

(** [/a] cannot be renamed to the other device; the tree copy stops at the
    FIFO [/a/p] before the file [/a/z] is copied; [Move] removes [/a] all
    the same and returns nil: [z] is nowhere afterwards. *)
Lemma Move_directory_fallback_errors_dropped_witness :
  exists fs',
    Move 2 "/a" "/mnt/b" None tree_mounted = Ret ("/mnt/b", None) fs'
    /\ is_some (go_err (mem_Lstat "/a/z" tree_mounted)) = false
    /\ mem_Lstat "/a/z" fs' = Err (PathError "lstat" "/a/z" ENOENT)
    /\ mem_Lstat "/mnt/b/z" fs' = Err (PathError "lstat" "/mnt/b/z" ENOENT).
Proof.
  eexists. split.
  - eapply (@Move_directory_fallback_errors_dropped MemOS 2 "/a" "/mnt/b"
              "/mnt/b" None tree_mounted).
    + left. split; vm_compute; reflexivity.
    + vm_compute. reflexivity.
    + vm_compute. reflexivity.
    + vm_compute. reflexivity.
    + vm_compute. reflexivity.
    + vm_compute. reflexivity.
    + vm_compute. reflexivity.
    + vm_compute. reflexivity.
    + vm_compute. reflexivity.
  - vm_compute. repeat split; reflexivity.
Defined.

(** The destination [/d] was made with the mode 0555 of [/s]; the link
    cannot be made in it; the loop returns nil. *)
Lemma CopyTree_entries_symlink_error_dropped_witness :
  mem_Symlink "/t" "/d/l" tree_readonly_dst
  = (Some (LinkError "symlink" "/t" "/d/l" EACCES), tree_readonly_dst)
  /\ CopyTree_entries (fun s d => CopyTree 1 s d (Some keep_links))
       "/s" "/d" keep_links [] [entry_l] tree_readonly_dst
     = Ret None tree_readonly_dst.
Proof.
  split; [vm_compute; reflexivity|].
  etransitivity.
  - eapply (@CopyTree_entries_symlink_error_dropped MemOS).
    + vm_compute. reflexivity.
    + vm_compute. reflexivity.
    + vm_compute. reflexivity.
    + vm_compute. reflexivity.
    + vm_compute. reflexivity.
    + vm_compute. reflexivity.
  - vm_compute. reflexivity.
Defined.

(** The whole call on the read-only tree: nil, and no [/d/l]. *)
Lemma CopyTree_readonly_link_lost :
  let r := CopyTree 2 "/s" "/d" (Some keep_links) tree_readonly in
  mem_ReadDir "/s" tree_readonly = Ok [entry_l]
  /\ returned r = Some None
  /\ world_after r = Some tree_readonly_dst
  /\ (mem_Lstat "/d/l" <$> world_after r)
     = Some (Err (PathError "lstat" "/d/l" ENOENT)).
Proof. vm_compute. repeat split; reflexivity. Qed.

Lemma destinsrc_self_false_witness :
  filepath_Abs "/d" tree_flat = Ok "/d"
  /\ destinsrc "/d" "/d" tree_flat = (false, None).
Proof.
  split; [reflexivity|].
  apply (@destinsrc_self_false MemOS "/d" "/d" tree_flat); reflexivity.
Defined.

(** The tests of the repository, and a sibling that is not inside. *)
Lemma destinsrc_tests :
  destinsrc "/_test" "/_test/testdir/" tree_flat = (true, None)
  /\ destinsrc "/_test/" "/_test/testdir" tree_flat = (true, None)
  /\ destinsrc "/_test/testdir" "/_test/empty/" tree_flat = (false, None)
  /\ destinsrc "_test/testdir/" "_test/empty" tree_flat = (false, None)
  /\ destinsrc "/d" "/dd" tree_flat = (false, None).
Proof. vm_compute. repeat split; reflexivity. Qed.

Lemma CopyTree_dst_exists_witness :
  CopyTree 1 "/d" "/a" None tree_flat
  = Ret (Some (AlreadyExistsError "/a")) tree_flat.
Proof.
  eapply (@CopyTree_dst_exists MemOS 0 "/d" "/a" None tree_flat).
  - vm_compute. reflexivity.
  - vm_compute. reflexivity.
  - vm_compute. reflexivity.
Defined.

(** A dangling link as destination is not opened, so not seen by the test
    of [CopyTree]; the call fails when the directory is made, with the
    error of [os.MkdirAll], and changes nothing. *)
Lemma CopyTree_onto_dangling_link :
  CopyTree 1 "/d" "/k" None tree_flat
  = Ret (Some (PathError "mkdir" "/k" EEXIST)) tree_flat.
Proof. vm_compute. reflexivity. Qed.

(** C6 as stated fails: [/d] is a directory and [/k] exists, it is a
    symbolic link, but with any fuel [CopyTree] of [/d] to [/k] ends with
    no [AlreadyExistsError]. *)
Lemma CopyTree_existing_dst_not_always_refused :
  ~ (forall (fs : MemFS) (src dst : string) (srcFileInfo dstInfo : FileInfo),
        mem_Stat src fs = Ok srcFileInfo ->
        IsDir srcFileInfo = true ->
        mem_Lstat dst fs = Ok dstInfo ->
        exists fuel e fs',
          CopyTree fuel src dst None fs
          = Ret (Some (AlreadyExistsError e)) fs').
Proof.
  intros H.
  edestruct (H tree_flat "/d" "/k") as (fuel & e & fs' & Hrun).
  - vm_compute. reflexivity.
  - vm_compute. reflexivity.
  - vm_compute. reflexivity.
  - destruct fuel as [|fuel]; vm_compute in Hrun; discriminate Hrun.
Qed.

(** The destination need not even be a link for the test to miss it:
    [/x/../d] cannot be opened while [/x] is missing, [os.MkdirAll] makes
    [/x] and finds [/d] in place, and the entries are copied to the
    cleaned paths, over the [f] that [/d] had. *)
Lemma CopyTree_through_missing_parent :
  mem_ReadFile "/d/f" tree_two_dirs = Ok (bytes "old")
  /\ returned (CopyTree 2 "/s" "/x/../d" None tree_two_dirs) = Some None
  /\ (mem_ReadFile "/d/f"
        <$> world_after (CopyTree 2 "/s" "/x/../d" None tree_two_dirs))
     = Some (Ok (bytes "new")).
Proof. vm_compute. repeat split; reflexivity. Qed.

Lemma Move_real_dst_exists_witness :
  Move 1 "/a" "/d" None tree_flat
  = Ret ("", Some (AlreadyExistsError "/d")) tree_flat.
Proof.
  eapply (@Move_real_dst_exists MemOS 1 "/a" "/d" None tree_flat).
  - vm_compute. reflexivity.
  - vm_compute. reflexivity.
  - vm_compute. reflexivity.
  - vm_compute. reflexivity.
Defined.

(** C7 as stated fails: [/d] is a directory, not the same file as [/a],
    and a symbolic link is at [/d/a], but with any fuel [Move] of [/a] to
    [/d] ends with no [AlreadyExistsError]. *)
Lemma Move_existing_real_dst_not_always_refused :
  ~ (forall (fs : MemFS) (src dst : string) (dstInfo realInfo : FileInfo),
        mem_Stat dst fs = Ok dstInfo ->
        IsDir dstInfo = true ->
        samefile src dst fs = false ->
        mem_Lstat (path_Join dst (path_Base src)) fs = Ok realInfo ->
        exists fuel s e fs',
          Move fuel src dst None fs
          = Ret (s, Some (AlreadyExistsError e)) fs').
Proof.
  intros H.
  edestruct (H tree_stale_link "/a" "/d") as (fuel & s & e & fs' & Hrun).
  - vm_compute. reflexivity.
  - vm_compute. reflexivity.
  - vm_compute. reflexivity.
  - vm_compute. reflexivity.
  - vm_compute in Hrun. discriminate Hrun.
Qed.

(** What [Move] does there: the link is dangling, [os.Stat] does not find
    it, and the rename puts the file in its place. *)
Lemma Move_onto_dangling_link :
  mem_Readlink "/d/a" tree_stale_link = Ok "/nowhere"
  /\ returned (Move 1 "/a" "/d" None tree_stale_link) = Some ("/d/a", None)
  /\ (mem_ReadFile "/d/a"
        <$> world_after (Move 1 "/a" "/d" None tree_stale_link))
     = Some (Ok (bytes "new"))
  /\ (mem_Lstat "/a"
        <$> world_after (Move 1 "/a" "/d" None tree_stale_link))
     = Some (Err (PathError "lstat" "/a" ENOENT)).
Proof. vm_compute. repeat split; reflexivity. Qed.

Lemma CopyMode_dangling_src_panics_witness :
  CopyMode "/k" "/a" false tree_flat = Panic tree_flat.
Proof.
  eapply (@CopyMode_dangling_src_panics MemOS "/k" "/a" false tree_flat).
  - vm_compute. reflexivity.
  - vm_compute. reflexivity.
  - vm_compute. reflexivity.
  - vm_compute. reflexivity.
  - vm_compute. reflexivity.
Defined.


Lemma CopyFile_nofollow_creates_link_witness :
  exists fs',
    CopyFile "/l" "/d/b" false tree_flat = Ret None fs'
    /\ mem_Readlink "/d/b" fs' = Ok "/l".
Proof.
  edestruct (CopyFile_nofollow_creates_link tree_flat "/l" "/d/b")
    as (fs' & Hrun & Hlink & _).
  - vm_compute. reflexivity.
  - vm_compute. reflexivity.
  - vm_compute. reflexivity.
  - vm_compute. reflexivity.
  - exists fs'. split; [exact Hrun | exact Hlink].
Defined.

(** C9 as stated fails: [/l] is a symbolic link and [/d/a] a file that is
    already there; [CopyFile] returns the error of [os.Symlink] and [/d/a]
    is no link. *)
Lemma CopyFile_nofollow_not_always_link :
  ~ (forall (fs : MemFS) (src dst : string) (srcStat : FileInfo),
        mem_Lstat src fs = Ok srcStat ->
        IsSymlink srcStat = true ->
        exists r fs',
          CopyFile src dst false fs = Ret r fs'
          /\ mem_Readlink dst fs' = Ok src).
Proof.
  intros H.
  edestruct (H tree_flat "/l" "/d/a") as (r & fs' & Hrun & Hlink).
  - vm_compute. reflexivity.
  - vm_compute. reflexivity.
  - vm_compute in Hrun. injection Hrun as <- <-.
    vm_compute in Hlink. discriminate Hlink.
Qed.

(** What [CopyFile] returns there. *)
Lemma CopyFile_nofollow_onto_file :
  CopyFile "/l" "/d/a" false tree_flat
  = Ret (Some (LinkError "symlink" "/l" "/d/a" EEXIST)) tree_flat.
Proof. vm_compute. reflexivity. Qed.

(** * Further properties over every operating system *)

Section Shutil_facts.

Context {OS : OsApi}.

(** X1. [stringInSlice] is membership in the list. *)
Theorem stringInSlice_In (a : string) (l : list string) :
  stringInSlice a l = true <-> In a l.
Proof.
  induction l as [|b l IH]; simpl.
  - split; [discriminate | contradiction].
  - destruct (String.eqb_spec b a) as [->|Hne].
    + split; auto.
    + rewrite IH. split; [now right | intros [Heq|Hin]; congruence].
Qed.

Lemma SameFile_refl (fi : FileInfo) : os_SameFile (Some fi) (Some fi) = true.
Proof. simpl. now rewrite !Z.eqb_refl. Qed.

(** X2. [Copy] of a file onto itself: for [p] that exists and is no
    directory, [SameFileError] is returned and nothing is changed. *)
Theorem Copy_onto_itself :
  forall (p : string) (followSymlinks : bool) (w : World) (info : FileInfo),
    os_Stat p w = Ok info ->
    IsDir info = false ->
    Copy p p followSymlinks w = Ret (p, Some (SameFileError p p)) w.
Proof.
  intros p followSymlinks w info Hst Hdir.
  assert (Hsame : samefile p p w = true).
  { unfold samefile. rewrite Hst. apply SameFile_refl. }
  unfold Copy, CopyFile. rewrite Hst, Hdir, Hsame. reflexivity.
Qed.

(** X3. The path [Copy] returns, with or without an error, is the
    destination it worked on: [dst/basename(src)] when [dst] is a
    directory, else [dst]. *)
Theorem Copy_returns_target :
  forall (src dst : string) (followSymlinks : bool) (w w' : World)
         (p : string) (err : option error),
    Copy src dst followSymlinks w = Ret (p, err) w' ->
    p = match os_Stat dst w with
        | Ok dstInfo =>
            if IsDir dstInfo then filepath_Join dst (filepath_Base src)
            else dst
        | Err _ => dst
        end.
Proof.
  intros src dst followSymlinks w w' p err H. unfold Copy in H.
  set (target := match os_Stat dst w with
                 | Ok dstInfo =>
                     if IsDir dstInfo
                     then filepath_Join dst (filepath_Base src) else dst
                 | Err _ => dst
                 end) in *.
  destruct (match os_Stat dst w with
            | Ok _ => false
            | Err err0 => negb (os_IsNotExist (Some err0))
            end).
  - now injection H as <- _ _.
  - destruct (CopyFile src target followSymlinks w) as [[e|] w1| |];
      try discriminate H.
    + now injection H as <- _ _.
    + destruct (CopyMode src target followSymlinks w1) as [[e|] w2| |];
        try discriminate H; now injection H as <- _ _.
Qed.

(** X4. The loop of [CopyTree] stops at the first error: the entries
    [l1 ++ l2] are handled as [l1], and then [l2] from the world [l1] left
    when [l1] ended without error; an error, a panic or no return of [l1]
    is the result for the whole list and [l2] is not looked at. *)
Theorem CopyTree_entries_app :
  forall (rec : string -> string -> M (option error)) (src dst : string)
         (options : CopyTreeOptions) (ignoredNames : list string)
         (l1 l2 : list FileInfo) (w : World),
    CopyTree_entries rec src dst options ignoredNames (l1 ++ l2)%list w
    = match CopyTree_entries rec src dst options ignoredNames l1 w with
      | Ret None w1 =>
          CopyTree_entries rec src dst options ignoredNames l2 w1
      | Ret (Some err) w1 => Ret (Some err) w1
      | Panic w1 => Panic w1
      | Diverge => Diverge
      end.
Proof.
  intros rec src dst options ignoredNames l1 l2.
  induction l1 as [|entry l1 IH]; intros w; [reflexivity|].
  simpl.
  destruct (stringInSlice (fi_Name entry) ignoredNames); [apply IH|].
  destruct (os_Lstat (filepath_Join src (fi_Name entry)) w)
    as [entryFileInfo|]; [|reflexivity].
  assert (Hcopy : forall m : M (string * option error),
             bind m (fun r => match snd r with
                              | Some err => ret (Some err)
                              | None =>
                                  CopyTree_entries rec src dst options
                                    ignoredNames (l1 ++ l2)%list
                              end) w
             = match bind m (fun r => match snd r with
                                      | Some err => ret (Some err)
                                      | None =>
                                          CopyTree_entries rec src dst
                                            options ignoredNames l1
                                      end) w with
               | Ret None w1 =>
                   CopyTree_entries rec src dst options ignoredNames l2 w1
               | Ret (Some err) w1 => Ret (Some err) w1
               | Panic w1 => Panic w1
               | Diverge => Diverge
               end).
  { intros m. unfold bind. destruct (m w) as [[q [e|]] w1| |];
      simpl; try reflexivity. apply IH. }
  destruct (IsSymlink entryFileInfo).
  - destruct (os_Readlink (filepath_Join src (fi_Name entry)) w)
      as [linkTo|]; [|reflexivity].
    destruct (Symlinks options).
    + destruct (os_Symlink linkTo (filepath_Join dst (fi_Name entry)) w).
      apply IH.
    + destruct (os_IsNotExist (go_err (os_Stat linkTo w))
                && IgnoreDanglingSymlinks options); [apply IH | apply Hcopy].
  - destruct (IsDir entryFileInfo); [|apply Hcopy].
    unfold bind.
    destruct (rec (filepath_Join src (fi_Name entry))
                (filepath_Join dst (fi_Name entry)) w) as [[e|] w1| |];
      simpl; try reflexivity. apply IH.
Qed.

(** X5. Entries whose name the ignore function returned play no part: the
    loop runs as on the list without them. *)
Theorem CopyTree_entries_ignored :
  forall (rec : string -> string -> M (option error)) (src dst : string)
         (options : CopyTreeOptions) (ignoredNames : list string)
         (entries : list FileInfo) (w : World),
    CopyTree_entries rec src dst options ignoredNames entries w
    = CopyTree_entries rec src dst options ignoredNames
        (List.filter
           (fun entry => negb (stringInSlice (fi_Name entry) ignoredNames))
           entries) w.
Proof.
  intros rec src dst options ignoredNames entries.
  induction entries as [|entry entries IH]; intros w; [reflexivity|].
  simpl.
  destruct (stringInSlice (fi_Name entry) ignoredNames) eqn:Hin; simpl;
    [apply IH|].
  rewrite Hin.
  destruct (os_Lstat (filepath_Join src (fi_Name entry)) w)
    as [entryFileInfo|]; [|reflexivity].
  assert (Hcopy : forall m : M (string * option error),
             bind m (fun r => match snd r with
                              | Some err => ret (Some err)
                              | None =>
                                  CopyTree_entries rec src dst options
                                    ignoredNames entries
                              end) w
             = bind m (fun r => match snd r with
                                | Some err => ret (Some err)
                                | None =>
                                    CopyTree_entries rec src dst options
                                      ignoredNames
                                      (List.filter
                                         (fun entry0 =>
                                            negb (stringInSlice
                                                    (fi_Name entry0)
                                                    ignoredNames)) entries)
                                end) w).
  { intros m. unfold bind. destruct (m w) as [[q [e|]] w1| |];
      simpl; try reflexivity. apply IH. }
  destruct (IsSymlink entryFileInfo).
  - destruct (os_Readlink (filepath_Join src (fi_Name entry)) w)
      as [linkTo|]; [|reflexivity].
    destruct (Symlinks options).
    + destruct (os_Symlink linkTo (filepath_Join dst (fi_Name entry)) w).
      apply IH.
    + destruct (os_IsNotExist (go_err (os_Stat linkTo w))
                && IgnoreDanglingSymlinks options); [apply IH | apply Hcopy].
  - destruct (IsDir entryFileInfo); [|apply Hcopy].
    unfold bind.
    destruct (rec (filepath_Join src (fi_Name entry))
                (filepath_Join dst (fi_Name entry)) w) as [[e|] w1| |];
      simpl; try reflexivity. apply IH.
Qed.

Lemma In_stringInSlice (a : string) (l : list string) :
  In a l -> stringInSlice a l = true.
Proof.
  induction l as [|b l IH]; simpl; [contradiction|].
  intros [->|Hin]; [now rewrite String.eqb_refl|].
  destruct (String.eqb b a); auto.
Qed.

(** When every entry is ignored nothing is copied. *)
Lemma CopyTree_entries_all_ignored :
  forall rec src dst options ignoredNames entries (w : World),
    (forall entry, In entry entries -> In (fi_Name entry) ignoredNames) ->
    CopyTree_entries rec src dst options ignoredNames entries w = Ret None w.
Proof.
  intros rec src dst options ignoredNames entries w Hall.
  induction entries as [|entry entries IH]; [reflexivity|].
  simpl.
  replace (stringInSlice (fi_Name entry) ignoredNames) with true.
  - apply IH. intros e He. apply Hall. now right.
  - symmetry. apply In_stringInSlice. apply Hall. now left.
Qed.

(** X6. A source that cannot be stat'ed or is no directory: [CopyTree]
    returns the error of [os.Stat] or [NotADirectoryError], and nothing is
    changed; the destination is not looked at. *)
Theorem CopyTree_src_not_directory :
  forall (fuel : nat) (src dst : string) (options : option CopyTreeOptions)
         (w : World),
    (forall info, os_Stat src w = Ok info -> IsDir info = false) ->
    exists err,
      CopyTree (S fuel) src dst options w = Ret (Some err) w
      /\ (os_Stat src w = Err err
          \/ (is_some (go_val (os_Stat src w)) = true
              /\ err = NotADirectoryError src)).
Proof.
  intros fuel src dst options w Hnd. simpl.
  destruct (os_Stat src w) as [info|err] eqn:Hst.
  - rewrite (Hnd info eq_refl). simpl. eauto.
  - eauto.
Qed.

(** *** [destinsrc] *)

Lemma prefix_app (s r : string) : String.prefix s (s +:+ r) = true.
Proof.
  induction s as [|c s IH]; simpl; [now destruct r|].
  destruct (ascii_dec c c); [exact IH | contradiction].
Qed.

Lemma prefix_inv (s t : string) :
  String.prefix s t = true -> exists r, t = s +:+ r.
Proof.
  revert t. induction s as [|c s IH]; intros t H.
  - now exists t.
  - destruct t as [|c' t]; simpl in H; [discriminate H|].
    destruct (ascii_dec c c') as [->|]; [|discriminate H].
    destruct (IH t H) as [r ->]. now exists r.
Qed.

(** X7. [destinsrc] answers true exactly when the absolute form of [dst]
    starts with the absolute form of [src] ended by one separator. *)
Theorem destinsrc_true_iff :
  forall (src dst a b : string) (w : World),
    filepath_Abs src w = Ok a ->
    filepath_Abs dst w = Ok b ->
    (destinsrc src dst w = (true, None)
     <-> exists rest,
          b = (if strings_HasSuffix a "/" then a else a +:+ "/") +:+ rest).
Proof.
  intros src dst a b w Ha Hb.
  rewrite (destinsrc_unterminated_dst src dst a b w Ha Hb).
  unfold strings_HasPrefix. split.
  - intros H. injection H as H. now apply prefix_inv.
  - intros [rest ->]. now rewrite prefix_app.
Qed.

(** No error comes from [destinsrc] but that of [filepath.Abs]. *)
Lemma destinsrc_error :
  forall (src dst : string) (w : World) (b : bool) (err : error),
    destinsrc src dst w = (b, Some err) ->
    b = false
    /\ (filepath_Abs src w = Err err \/ filepath_Abs dst w = Err err).
Proof.
  intros src dst w b err. unfold destinsrc.
  destruct (filepath_Abs src w) as [a|e].
  - destruct (filepath_Abs dst w) as [b'|e]; [discriminate|].
    intros H. injection H as <- <-. auto.
  - intros H. injection H as <- <-. auto.
Qed.

(** *** [Move] *)

Lemma Move_to_result :
  forall (fuel : nat) (src dst real_dst : string) (options : MoveOptions)
         (w w' : World) (p : string) (err : option error),
    Move_to fuel src dst real_dst options w = Ret (p, err) w' ->
    match err with Some _ => p = "" | None => p = real_dst end.
Proof.
  intros fuel src dst real_dst options w w' p err. unfold Move_to.
  destruct (os_Rename src real_dst w) as [[e|] w1].
  2:{ intros H. now injection H as <- <- _. }
  destruct (os_Lstat src w1) as [srcStat|e1].
  2:{ intros H. now injection H as <- <- _. }
  destruct (IsSymlink srcStat).
  - destruct (os_Readlink src w1) as [linkto|e2].
    2:{ intros H. now injection H as <- <- _. }
    destruct (os_Symlink linkto real_dst w1) as [[e3|] w2].
    { intros H. now injection H as <- <- _. }
    destruct (os_Remove src w2) as [[e4|] w3];
      intros H; now injection H as <- <- _.
  - destruct (fst (isDirectory src w1)).
    + destruct (destinsrc src dst w1) as [insrc [e5|]].
      { intros H. now injection H as <- <- _. }
      destruct insrc.
      { intros H. now injection H as <- <- _. }
      unfold bind.
      destruct (CopyTree fuel src real_dst _ w1) as [r w2| |];
        try discriminate.
      destruct (os_RemoveAll src w2) as [rm w3].
      intros H. now injection H as <- <- _.
    + unfold bind.
      destruct (Move_CopyFunction options src real_dst true w1)
        as [[q [e6|]] w2| |]; simpl; try discriminate.
      { intros H. now injection H as <- <- _. }
      destruct (os_Remove src w2) as [[e7|] w3];
        intros H; now injection H as <- <- _.
Qed.

(** X8. What [Move] returns.  Without an error the path is the final
    destination: [dst], or [dst/basename(src)] when [dst] is a directory
    and not the same file as [src].  With an error the path is empty,
    except when [dst] is a directory and the same file as [src]: then the
    result of [os.Rename] is returned beside [dst]. *)
Theorem Move_result :
  forall (fuel : nat) (src dst : string) (options : option MoveOptions)
         (w w' : World) (p : string) (err : option error),
    Move fuel src dst options w = Ret (p, err) w' ->
    if fst (isDirectory dst w) then
      if samefile src dst w then
        p = dst /\ os_Rename src dst w = (err, w')
      else
        match err with
        | Some _ => p = ""
        | None => p = path_Join dst (path_Base src)
        end
    else
      match err with Some _ => p = "" | None => p = dst end.
Proof.
  intros fuel src dst options w w' p err. unfold Move.
  destruct (fst (isDirectory dst w)).
  - destruct (samefile src dst w).
    + destruct (os_Rename src dst w) as [e w1].
      intros H. now injection H as <- <- <-.
    + destruct (os_Stat (path_Join dst (path_Base src)) w).
      * intros H. now injection H as <- <- _.
      * apply Move_to_result.
  - apply Move_to_result.
Qed.

(** X9. A directory is not moved into itself: when the rename fails, [src]
    is a directory and [destinsrc] finds [dst] inside it, [Move] returns
    [MoveOntoSelfError]; nothing is copied and nothing is removed. *)
Theorem Move_onto_self :
  forall (fuel : nat) (src dst real_dst : string)
         (options : option MoveOptions) (w w1 : World)
         (e : error) (srcStat srcInfo : FileInfo),
    (fst (isDirectory dst w) = false /\ real_dst = dst
     \/ fst (isDirectory dst w) = true /\ samefile src dst w = false
        /\ real_dst = path_Join dst (path_Base src)
        /\ is_some (go_err (os_Stat real_dst w)) = true) ->
    os_Rename src real_dst w = (Some e, w1) ->
    os_Lstat src w1 = Ok srcStat ->
    IsSymlink srcStat = false ->
    os_Stat src w1 = Ok srcInfo ->
    IsDir srcInfo = true ->
    destinsrc src dst w1 = (true, None) ->
    Move fuel src dst options w
    = Ret ("", Some (MoveOntoSelfError src dst)) w1.
Proof.
  intros fuel src dst real_dst options w w1 e srcStat srcInfo
         Hreal Hren Hl Hsym Hst Hdir Hin.
  assert (Hto : forall o, Move_to fuel src dst real_dst o w
                          = Ret ("", Some (MoveOntoSelfError src dst)) w1).
  { intros o. unfold Move_to, isDirectory.
    rewrite Hren, Hl, Hsym, Hst. simpl. now rewrite Hdir, Hin. }
  unfold Move.
  destruct Hreal as [[Hnd ->] | (Hd & Hsame & -> & Hmiss)].
  - rewrite Hnd. apply Hto.
  - rewrite Hd, Hsame.
    destruct (os_Stat (path_Join dst (path_Base src)) w);
      [discriminate Hmiss | apply Hto].
Qed.

(** *** [CopyMode] *)

(** X10. [CopyMode] panics in one case only: both [os.Lstat] calls
    succeeded, the two are not both symbolic links left alone, and
    [os.Stat] of [src] failed.  The world is then the one of the call. *)
Theorem CopyMode_panics_iff :
  forall (src dst : string) (followSymlinks : bool) (w w' : World),
    CopyMode src dst followSymlinks w = Panic w'
    <-> w' = w
        /\ exists srcStat dstStat,
             os_Lstat src w = Ok srcStat
             /\ os_Lstat dst w = Ok dstStat
             /\ negb followSymlinks && IsSymlink srcStat
                && IsSymlink dstStat = false
             /\ is_some (go_err (os_Stat src w)) = true.
Proof.
  intros src dst followSymlinks w w'. unfold CopyMode. split.
  - destruct (os_Lstat src w) as [srcStat|]; [|discriminate].
    destruct (os_Lstat dst w) as [dstStat|]; [|discriminate].
    destruct (negb followSymlinks && IsSymlink srcStat && IsSymlink dstStat)
      eqn:Hboth; [discriminate|].
    destruct (os_Stat src w) as [info|err]; simpl.
    + destruct (os_Chmod dst (fi_Mode info) w). discriminate.
    + intros H. injection H as <-. split; [reflexivity|].
      exists srcStat, dstStat. auto.
  - intros (-> & srcStat & dstStat & -> & -> & -> & Hst).
    destruct (os_Stat src w); [discriminate Hst | reflexivity].
Qed.

(** *** The mode tests *)

Lemma land_pow2 (a n : Z) :
  0 <= n -> Z.land a (2 ^ n) = if Z.testbit a n then 2 ^ n else 0.
Proof.
  intros Hn. apply Z.bits_inj'. intros m Hm.
  rewrite Z.land_spec, Z.pow2_bits_eqb by exact Hn.
  destruct (Z.eqb_spec n m) as [->|Hne].
  - rewrite andb_true_r. destruct (Z.testbit a m) eqn:Ha.
    + now rewrite Z.pow2_bits_true.
    + now rewrite Z.bits_0.
  - rewrite andb_false_r. destruct (Z.testbit a n).
    + now rewrite Z.pow2_bits_false.
    + now rewrite Z.bits_0.
Qed.

(** X11. [specialfile] is the named-pipe bit of the mode and [IsSymlink]
    the symbolic-link bit, whatever the other bits are; so a socket or a
    device (bits 24 and 26) is not a special file for [CopyFile]. *)
Theorem mode_tests_are_bits :
  forall fi : FileInfo,
    specialfile fi = Z.testbit (fi_Mode fi) 25
    /\ IsSymlink fi = Z.testbit (fi_Mode fi) 27.
Proof.
  intros fi. unfold specialfile, IsSymlink, ModeNamedPipe, ModeSymlink.
  rewrite !land_pow2 by lia.
  split.
  - destruct (Z.testbit (fi_Mode fi) 25); reflexivity.
  - destruct (Z.testbit (fi_Mode fi) 27); reflexivity.
Qed.

(** *** What success presupposes *)

(** X18. [CopyTree] returns nil only if [os.Stat] found a directory at
    [src], [os.Open] reported [dst] as missing, and [os.MkdirAll] of [dst]
    with the mode of [src] returned nil. *)
Theorem CopyTree_nil_needs :
  forall (fuel : nat) (src dst : string) (options : option CopyTreeOptions)
         (w w' : World),
    CopyTree fuel src dst options w = Ret None w' ->
    exists srcFileInfo,
      os_Stat src w = Ok srcFileInfo
      /\ IsDir srcFileInfo = true
      /\ os_IsNotExist (go_err (os_Open dst w)) = true
      /\ fst (os_MkdirAll dst (fi_Mode srcFileInfo) w) = None.
Proof.
  intros [|fuel] src dst options w w'; [discriminate|]. simpl.
  destruct (os_Stat src w) as [srcFileInfo|]; [|discriminate].
  destruct (IsDir srcFileInfo) eqn:Hdir; [|discriminate]. simpl.
  destruct (os_IsNotExist (go_err (os_Open dst w))) eqn:Hopen;
    [|discriminate]. simpl.
  destruct (ioutil_ReadDir src w) as [entries|]; [|discriminate].
  destruct (os_MkdirAll dst (fi_Mode srcFileInfo) w) as [[err|] w1] eqn:Hmk;
    [discriminate|].
  intros _. exists srcFileInfo. now rewrite Hdir, Hmk.
Qed.

(** X19. [CopyFile] returns nil only when [src] and [dst] are not the same
    file, [src] can be lstat'ed and is no named pipe, and [dst], when it
    exists, is no named pipe either. *)
Theorem CopyFile_nil_needs :
  forall (src dst : string) (followSymlinks : bool) (w w' : World),
    CopyFile src dst followSymlinks w = Ret None w' ->
    samefile src dst w = false
    /\ (exists srcStat,
          os_Lstat src w = Ok srcStat /\ specialfile srcStat = false)
    /\ (forall dstStat,
          os_Stat dst w = Ok dstStat -> specialfile dstStat = false)
    /\ (forall err,
          os_Stat dst w = Err err -> os_IsNotExist (Some err) = true).
Proof.
  intros src dst followSymlinks w w'. unfold CopyFile.
  destruct (samefile src dst w); [discriminate|].
  destruct (os_Lstat src w) as [srcStat|]; [|discriminate].
  destruct (specialfile srcStat) eqn:Hsp; [discriminate|].
  destruct (os_Stat dst w) as [dstStat|err].
  - destruct (specialfile dstStat) eqn:Hd; [discriminate|].
    intros _. split; [reflexivity|]. split; [eauto|]. split.
    + intros ? H. now injection H as <-.
    + intros ? H. discriminate H.
  - destruct (os_IsNotExist (Some err)) eqn:Hne; [|discriminate].
    intros _. split; [reflexivity|]. split; [eauto|]. split.
    + intros ? H. discriminate H.
    + intros ? H. now injection H as <-.
Qed.

End Shutil_facts.

(** * Further properties of the in-memory file system *)

Section MemFS_copy.

Implicit Types (fs : MemFS) (src dst name : string)
  (t : gmap (list string) inode).

(** A new object where nothing was leaves what was found where it was. *)
Lemma walk_insert_fresh n t f cur comps p d i :
  t !! d = None ->
  walk n t f cur comps = Found p ->
  walk n (<[d := i]> t) f cur comps = Found p.
Proof.
  intros Hd. revert cur comps.
  induction n as [|n IH]; intros cur [|c rest] H; try discriminate H;
    try exact H.
  rewrite walk_cons in H. rewrite walk_cons.
  assert (Hne : forall k, is_Some (i_node <$> t !! k) ->
                          <[d := i]> t !! k = t !! k).
  { intros k [x Hk]. apply lookup_insert_ne. intros ->.
    rewrite Hd in Hk. discriminate Hk. }
  destruct (i_node <$> t !! cur) as [[]|] eqn:Hc; try discriminate H.
  rewrite Hne, Hc by (rewrite Hc; eauto).
  destruct (String.eqb c "" || String.eqb c "."); [eauto|].
  destruct (String.eqb c ".."); [eauto|].
  destruct (i_node <$> t !! (cur ++ [c])%list) as [nd|] eqn:Hp.
  - rewrite Hne, Hp by (rewrite Hp; eauto).
    destruct nd; eauto.
    destruct (f || negb (is_nil rest)); [eauto | exact H].
  - destruct (is_nil rest); discriminate H.
Qed.

Lemma resolve_Missing_None fs f name d :
  resolve fs f name = Missing d -> tree fs !! d = None.
Proof.
  unfold resolve. destruct (String.eqb name ""); [discriminate|].
  apply walk_Missing_None.
Qed.

Lemma resolve_add_node_Found fs f name p d nd :
  tree fs !! d = None ->
  resolve fs f name = Found p ->
  resolve (add_node fs d nd) f name = Found p.
Proof.
  unfold resolve. destruct (String.eqb name ""); [discriminate|].
  intros Hd H. simpl. now apply walk_insert_fresh.
Qed.

(** An object replaced by one of the same shape keeps every path. *)
Lemma resolve_set_node fs f name p i nd :
  tree fs !! p = Some i ->
  shape {| i_ino := i_ino i; i_node := nd |} = shape i ->
  resolve (set_node fs p i nd) f name = resolve fs f name.
Proof.
  intros Hp Hs. unfold resolve. destruct (String.eqb name ""); [reflexivity|].
  simpl. apply walk_shape. intros k.
  destruct (decide (p = k)) as [<-|Hne].
  - rewrite lookup_insert_eq, Hp. simpl. now rewrite Hs.
  - now rewrite lookup_insert_ne.
Qed.

Lemma IsDir_info fs name p i :
  IsDir (info_of fs name p i)
  = match i_node i with NDir _ => true | _ => false end.
Proof.
  unfold IsDir, info_of. simpl. destruct (i_node i); simpl.
  - now rewrite land_perm_bit.
  - rewrite Z.land_lor_distr_l, land_perm_bit by reflexivity. reflexivity.
  - reflexivity.
  - now rewrite Z.land_lor_distr_l, land_perm_bit.
Qed.

(** An object that is no link, directory or FIFO is a regular file. *)
Lemma regular_info fs name p i :
  IsSymlink (info_of fs name p i) = false ->
  IsDir (info_of fs name p i) = false ->
  specialfile (info_of fs name p i) = false ->
  exists perm data, i_node i = NFile perm data.
Proof.
  rewrite IsSymlink_info, IsDir_info, specialfile_info.
  destruct (i_node i); try discriminate; eauto.
Qed.

Lemma Stat_of_Lstat fs name p i :
  resolve fs false name = Found p ->
  tree fs !! p = Some i ->
  (forall tg, i_node i <> NLink tg) ->
  resolve fs true name = Found p.
Proof.
  intros Hr Hp Hi. apply resolve_follow; [exact Hr|].
  intros q tg Hq. injection Hq as <-. rewrite Hp. simpl.
  intros Heq. injection Heq as Heq. now apply (Hi tg).
Qed.

Lemma ReadFile_of_node fs name p i perm data :
  resolve fs true name = Found p ->
  tree fs !! p = Some i ->
  i_node i = NFile perm data ->
  mem_ReadFile name fs = Ok data.
Proof.
  intros Hr Hp Hi. unfold mem_ReadFile. rewrite Hr, Hp. simpl.
  now rewrite Hi.
Qed.

(** The content-copy path into a path where nothing is. *)
Lemma CopyFile_copy_fresh fs src dst srcStat ps isrc perm data d :
  resolve fs true src = Found ps ->
  tree fs !! ps = Some isrc ->
  i_node isrc = NFile perm data ->
  fi_Size srcStat = Z.of_nat (length data) ->
  resolve fs true dst = Missing d ->
  writable (tree fs) (removelast d) = true ->
  let np := new_perm fs 438 in
  CopyFile_copy src srcStat dst fs
  = Ret None
      (set_node (add_node fs d (NFile np [])) d
         {| i_ino := next_ino fs; i_node := NFile np [] |} (NFile np data)).
Proof.
  intros Hrs Hps Hi Hsize Hrd Hw np.
  assert (Hne : d <> ps).
  { intros ->. rewrite (resolve_Missing_None _ _ _ _ Hrd) in Hps.
    discriminate Hps. }
  unfold CopyFile_copy. mem_os.
  unfold mem_Open. rewrite Hrs, Hps.
  unfold mem_Create. rewrite Hrd, Hw.
  unfold mem_Copy. cbn [snd fst tree add_node].
  rewrite lookup_insert_ne, Hps by exact Hne. cbn [fmap option_fmap option_map].
  rewrite Hi, lookup_insert_eq. cbn [i_node].
  rewrite drop_nil, app_nil_r, Hsize, Z.eqb_refl. reflexivity.
Qed.

(** The content-copy path onto another regular file. *)
Lemma CopyFile_copy_over fs src dst srcStat ps isrc perm data pd id permd old :
  resolve fs true src = Found ps ->
  tree fs !! ps = Some isrc ->
  i_node isrc = NFile perm data ->
  fi_Size srcStat = Z.of_nat (length data) ->
  resolve fs true dst = Found pd ->
  tree fs !! pd = Some id ->
  i_node id = NFile permd old ->
  pd <> ps ->
  CopyFile_copy src srcStat dst fs
  = Ret None
      (set_node (set_node fs pd id (NFile permd [])) pd
         {| i_ino := i_ino id; i_node := NFile permd [] |}
         (NFile permd data)).
Proof.
  intros Hrs Hps Hi Hsize Hrd Hpd Hid Hne.
  unfold CopyFile_copy. mem_os.
  unfold mem_Open. rewrite Hrs, Hps.
  unfold mem_Create. rewrite Hrd, Hpd, Hid.
  unfold mem_Copy. cbn [snd fst tree set_node with_tree].
  rewrite lookup_insert_ne, Hps by exact Hne. cbn [fmap option_fmap option_map].
  rewrite Hi, lookup_insert_eq. cbn [i_node].
  rewrite drop_nil, app_nil_r, Hsize, Z.eqb_refl. reflexivity.
Qed.

(** Up to its content-copy path [CopyFile] on a regular file [src] only
    looks at [dst]. *)
Lemma CopyFile_regular fs src dst followSymlinks ps isrc perm data :
  resolve fs false src = Found ps ->
  tree fs !! ps = Some isrc ->
  i_node isrc = NFile perm data ->
  samefile src dst fs = false ->
  (forall dstStat, mem_Stat dst fs = Ok dstStat ->
                   specialfile dstStat = false) ->
  (forall err, mem_Stat dst fs = Err err ->
               os_IsNotExist (Some err) = true) ->
  CopyFile src dst followSymlinks fs
  = CopyFile_copy src (info_of fs (filepath_Base src) ps isrc) dst fs.
Proof.
  intros Hrs Hps Hi Hsame Hnsp Hne.
  assert (Hl : mem_Lstat src fs
               = Ok (info_of fs (filepath_Base src) ps isrc)).
  { unfold mem_Lstat, stat_with. now rewrite Hrs, Hps. }
  unfold CopyFile. rewrite Hsame. mem_os. rewrite Hl.
  rewrite specialfile_info, IsSymlink_info, Hi.
  destruct (mem_Stat dst fs) as [dstStat|err].
  - rewrite (Hnsp dstStat eq_refl). now rewrite andb_false_r.
  - rewrite (Hne err eq_refl). now rewrite andb_false_r.
Qed.

(** X12. A regular file copied to a path where nothing is, in a directory
    that takes a new entry: [CopyFile] returns nil, [dst] then reads as
    [src], and [src] reads as before. *)
Theorem CopyFile_to_fresh_path :
  forall (fs : MemFS) (src dst : string) (followSymlinks : bool)
         (srcStat : FileInfo) (d : list string),
    mem_Lstat src fs = Ok srcStat ->
    IsSymlink srcStat = false ->
    IsDir srcStat = false ->
    specialfile srcStat = false ->
    resolve fs true dst = Missing d ->
    writable (tree fs) (removelast d) = true ->
    exists fs' data,
      CopyFile src dst followSymlinks fs = Ret None fs'
      /\ mem_ReadFile src fs = Ok data
      /\ mem_ReadFile dst fs' = Ok data
      /\ mem_ReadFile src fs' = Ok data.
Proof.
  intros fs src dst followSymlinks srcStat d Hl Hsym Hdir Hsp Hrd Hw.
  destruct (stat_with_Ok _ _ _ _ _ Hl) as (ps & isrc & Hrs & Hps & ->).
  destruct (regular_info _ _ _ _ Hsym Hdir Hsp) as (perm & data & Hi).
  assert (Hrs' : resolve fs true src = Found ps).
  { eapply Stat_of_Lstat; [exact Hrs | exact Hps |].
    intros tg. rewrite Hi. discriminate. }
  assert (Hst : mem_Stat dst fs = Err (PathError "stat" dst ENOENT)).
  { unfold mem_Stat, stat_with. now rewrite Hrd. }
  pose proof (resolve_Missing_None _ _ _ _ Hrd) as Hd.
  assert (Hne : d <> ps).
  { intros ->. rewrite Hd in Hps. discriminate Hps. }
  eexists. exists data. split; [|split; [|split]].
  - rewrite (CopyFile_regular fs src dst followSymlinks ps isrc perm data
               Hrs Hps Hi).
    + eapply CopyFile_copy_fresh; try eassumption.
      unfold info_of. simpl. now rewrite Hi.
    + exact (@samefile_no_dst MemOS src dst fs _ Hst).
    + intros dstStat Hok. rewrite Hst in Hok. discriminate Hok.
    + intros err Herr. rewrite Hst in Herr. now injection Herr as <-.
  - eapply ReadFile_of_node; eassumption.
  - eapply ReadFile_of_node.
    + rewrite resolve_set_node.
      * apply resolve_add_node; [exact Hrd | right; discriminate].
      * simpl. apply lookup_insert_eq.
      * reflexivity.
    + simpl. apply lookup_insert_eq.
    + reflexivity.
  - eapply ReadFile_of_node.
    + rewrite resolve_set_node.
      * apply resolve_add_node_Found; [exact Hd | exact Hrs'].
      * simpl. apply lookup_insert_eq.
      * reflexivity.
    + simpl. rewrite !lookup_insert_ne by exact Hne. exact Hps.
    + exact Hi.
Qed.

(** X13. A regular file copied over another regular file: [CopyFile]
    returns nil, [dst] then reads as [src], and [src] reads as before. *)
Theorem CopyFile_over_file :
  forall (fs : MemFS) (src dst : string) (followSymlinks : bool)
         (srcStat dstStat : FileInfo),
    mem_Lstat src fs = Ok srcStat ->
    IsSymlink srcStat = false ->
    IsDir srcStat = false ->
    specialfile srcStat = false ->
    mem_Stat dst fs = Ok dstStat ->
    IsSymlink dstStat = false ->
    IsDir dstStat = false ->
    specialfile dstStat = false ->
    samefile src dst fs = false ->
    exists fs' data,
      CopyFile src dst followSymlinks fs = Ret None fs'
      /\ mem_ReadFile src fs = Ok data
      /\ mem_ReadFile dst fs' = Ok data
      /\ mem_ReadFile src fs' = Ok data.
Proof.
  intros fs src dst followSymlinks srcStat dstStat
         Hl Hsym Hdir Hsp Hst Hdsym Hddir Hdsp Hsame.
  destruct (stat_with_Ok _ _ _ _ _ Hl) as (ps & isrc & Hrs & Hps & ->).
  destruct (regular_info _ _ _ _ Hsym Hdir Hsp) as (perm & data & Hi).
  destruct (stat_with_Ok _ _ _ _ _ Hst) as (pd & id & Hrd & Hpd & ->).
  destruct (regular_info _ _ _ _ Hdsym Hddir Hdsp) as (permd & old & Hid).
  assert (Hrs' : resolve fs true src = Found ps).
  { eapply Stat_of_Lstat; [exact Hrs | exact Hps |].
    intros tg. rewrite Hi. discriminate. }
  assert (Hne : pd <> ps).
  { intros ->. rewrite Hps in Hpd. injection Hpd as <-.
    unfold samefile in Hsame. mem_os. rewrite Hst in Hsame.
    unfold mem_Stat, stat_with in Hsame. rewrite Hrs', Hps in Hsame.
    simpl in Hsame. rewrite !Z.eqb_refl in Hsame. discriminate Hsame. }
  eexists. exists data. split; [|split; [|split]].
  - rewrite (CopyFile_regular fs src dst followSymlinks ps isrc perm data
               Hrs Hps Hi Hsame).
    + eapply CopyFile_copy_over; try eassumption.
      unfold info_of. simpl. now rewrite Hi.
    + intros dstStat Hok. rewrite Hst in Hok. injection Hok as <-.
      exact Hdsp.
    + intros err Herr. rewrite Hst in Herr. discriminate Herr.
  - eapply ReadFile_of_node; eassumption.
  - eapply ReadFile_of_node.
    + rewrite !resolve_set_node; [exact Hrd | exact Hpd | | |].
      * unfold shape. simpl. now rewrite Hid.
      * simpl. apply lookup_insert_eq.
      * reflexivity.
    + simpl. apply lookup_insert_eq.
    + reflexivity.
  - eapply ReadFile_of_node.
    + rewrite !resolve_set_node; [exact Hrs' | exact Hpd | | |].
      * unfold shape. simpl. now rewrite Hid.
      * simpl. apply lookup_insert_eq.
      * reflexivity.
    + simpl. rewrite !lookup_insert_ne by exact Hne. exact Hps.
    + exact Hi.
Qed.

Lemma land_perm_idem (x : Z) :
  Z.land (Z.land x ModePerm) ModePerm = Z.land x ModePerm.
Proof. now rewrite <- Z.land_assoc, Z.land_diag. Qed.

Lemma type_bit_perm (T x : Z) :
  Z.land T ModePerm = 0 ->
  Z.land (Z.lor T (Z.land x ModePerm)) ModePerm = Z.land x ModePerm.
Proof.
  intros H. now rewrite Z.land_lor_distr_l, H, Z.lor_0_l, land_perm_idem.
Qed.

(** What [os.Chmod] does to an object that is no link. *)
Lemma Chmod_node fs dst mode pd id :
  resolve fs true dst = Found pd ->
  tree fs !! pd = Some id ->
  (forall tg, i_node id <> NLink tg) ->
  exists nd,
    mem_Chmod dst mode fs = (None, set_node fs pd id nd)
    /\ shape {| i_ino := i_ino id; i_node := nd |} = shape id
    /\ Z.land (node_mode nd) ModePerm = Z.land mode ModePerm
    /\ (forall perm data, i_node id = NFile perm data ->
                          exists perm', nd = NFile perm' data)
    /\ (forall perm data, nd = NFile perm data ->
                          exists perm', i_node id = NFile perm' data).
Proof.
  intros Hr Hp Hnl. unfold mem_Chmod. rewrite Hr, Hp.
  unfold shape. destruct (i_node id) as [perm data|perm|tg|perm] eqn:Hi.
  - exists (NFile (Z.land mode ModePerm) data).
    split; [reflexivity|]. split; [reflexivity|].
    split; [simpl; now rewrite !land_perm_idem|]. split.
    + intros perm0 data0 H. injection H as _ <-. eauto.
    + intros perm0 data0 H. injection H as _ <-. eauto.
  - exists (NDir (Z.land mode ModePerm)).
    split; [reflexivity|]. split; [reflexivity|]. split.
    + simpl. rewrite type_bit_perm by reflexivity. apply land_perm_idem.
    + split; intros perm0 data0 H; discriminate H.
  - now destruct (Hnl tg).
  - exists (NFifo (Z.land mode ModePerm)).
    split; [reflexivity|]. split; [reflexivity|]. split.
    + simpl. rewrite type_bit_perm by reflexivity. apply land_perm_idem.
    + split; intros perm0 data0 H; discriminate H.
Qed.

(** X14. [CopyMode] gives [dst] the permission bits of [src], both looked
    up through symbolic links, unless the two are links and links are not
    followed; no file content changes. *)
Theorem CopyMode_copies_permissions :
  forall (fs : MemFS) (src dst : string) (followSymlinks : bool)
         (srcL dstL srcS dstS : FileInfo),
    mem_Lstat src fs = Ok srcL ->
    mem_Lstat dst fs = Ok dstL ->
    negb followSymlinks && IsSymlink srcL && IsSymlink dstL = false ->
    mem_Stat src fs = Ok srcS ->
    mem_Stat dst fs = Ok dstS ->
    IsSymlink dstS = false ->
    exists fs' dstS',
      CopyMode src dst followSymlinks fs = Ret None fs'
      /\ mem_Stat dst fs' = Ok dstS'
      /\ Z.land (fi_Mode dstS') ModePerm = Z.land (fi_Mode srcS) ModePerm
      /\ (forall name data,
            mem_ReadFile name fs = Ok data ->
            mem_ReadFile name fs' = Ok data).
Proof.
  intros fs src dst followSymlinks srcL dstL srcS dstS
         Hsl Hdl Hboth Hss Hds Hnl.
  destruct (stat_with_Ok _ _ _ _ _ Hds) as (pd & id & Hrd & Hpd & ->).
  rewrite IsSymlink_info in Hnl.
  destruct (Chmod_node fs dst (fi_Mode srcS) pd id Hrd Hpd)
    as (nd & Hch & Hshape & Hperm & Hkeep & Hback).
  { intros tg Heq. rewrite Heq in Hnl. discriminate Hnl. }
  assert (Hres : forall f name,
             resolve (set_node fs pd id nd) f name = resolve fs f name).
  { intros f name. now apply resolve_set_node. }
  exists (set_node fs pd id nd),
         (info_of (set_node fs pd id nd) (filepath_Base dst) pd
            {| i_ino := i_ino id; i_node := nd |}).
  split; [|split; [|split]].
  - unfold CopyMode. mem_os. rewrite Hsl, Hdl, Hboth, Hss. simpl.
    now rewrite Hch.
  - unfold mem_Stat, stat_with. rewrite Hres, Hrd. simpl.
    now rewrite lookup_insert_eq.
  - exact Hperm.
  - intros name data. unfold mem_ReadFile. rewrite Hres.
    destruct (resolve fs true name) as [p| |]; try discriminate.
    simpl. destruct (decide (pd = p)) as [<-|Hne].
    + rewrite lookup_insert_eq, Hpd. simpl.
      destruct (i_node id) as [perm data'| | |] eqn:Hi.
      * destruct (Hkeep perm data' eq_refl) as [perm' ->]. auto.
      * discriminate.
      * discriminate.
      * intros H. injection H as <-.
        destruct nd as [perm0 data0| | |]; try reflexivity.
        -- destruct (Hback perm0 data0 eq_refl) as [? Hx]. discriminate Hx.
        -- unfold shape in Hshape. simpl in Hshape. rewrite Hi in Hshape.
           discriminate Hshape.
        -- unfold shape in Hshape. simpl in Hshape. rewrite Hi in Hshape.
           discriminate Hshape.
    + rewrite lookup_insert_ne by exact Hne. auto.
Qed.

Lemma set_add_node fs d n n' :
  set_node (add_node fs d n) d {| i_ino := next_ino fs; i_node := n |} n'
  = add_node fs d n'.
Proof.
  unfold set_node, add_node, with_tree. simpl. f_equal.
  apply insert_insert_eq.
Qed.

Lemma stat_add_node_other fs op f name p i d nd :
  resolve fs f name = Found p ->
  tree fs !! p = Some i ->
  tree fs !! d = None ->
  stat_with op f name (add_node fs d nd)
  = Ok (info_of fs (filepath_Base name) p i).
Proof.
  intros Hr Hp Hd. unfold stat_with.
  rewrite (resolve_add_node_Found fs f name p d nd Hd Hr). simpl.
  rewrite lookup_insert_ne, Hp; [reflexivity|].
  intros ->. rewrite Hd in Hp. discriminate Hp.
Qed.

Lemma stat_add_node_new fs op f name d nd :
  resolve fs f name = Missing d ->
  f = false \/ (forall tg, nd <> NLink tg) ->
  stat_with op f name (add_node fs d nd)
  = Ok (info_of fs (filepath_Base name) d
          {| i_ino := next_ino fs; i_node := nd |}).
Proof.
  intros Hr Hn. unfold stat_with.
  rewrite (resolve_add_node fs f name d nd Hr Hn). simpl.
  now rewrite lookup_insert_eq.
Qed.

(** [Copy] of the regular file at [ps] to the path [dst] where nothing
    is. *)
Lemma Copy_fresh_run fs src dst followSymlinks ps isrc perm data d :
  resolve fs false src = Found ps ->
  tree fs !! ps = Some isrc ->
  i_node isrc = NFile perm data ->
  resolve fs false dst = Missing d ->
  writable (tree fs) (removelast d) = true ->
  Copy src dst followSymlinks fs
  = Ret (dst, None)
      (add_node fs d
         (NFile (Z.land (Z.land perm ModePerm) ModePerm) data)).
Proof.
  intros Hrs Hps Hi Hrd Hw.
  assert (Hrs' : resolve fs true src = Found ps).
  { eapply Stat_of_Lstat; [exact Hrs | exact Hps |].
    intros tg. rewrite Hi. discriminate. }
  assert (Hrd' : resolve fs true dst = Missing d).
  { apply resolve_follow; [exact Hrd|]. intros q tg Hq. discriminate Hq. }
  assert (Hst : mem_Stat dst fs = Err (PathError "stat" dst ENOENT)).
  { unfold mem_Stat, stat_with. now rewrite Hrd'. }
  pose proof (resolve_Missing_None _ _ _ _ Hrd) as Hd.
  set (np := new_perm fs 438).
  set (fs1 := add_node fs d (NFile np data)).
  assert (Hcopy : CopyFile src dst followSymlinks fs = Ret None fs1).
  { rewrite (CopyFile_regular fs src dst followSymlinks ps isrc perm data
               Hrs Hps Hi).
    - rewrite (CopyFile_copy_fresh fs src dst _ ps isrc perm data d
                 Hrs' Hps Hi); try assumption.
      + cbv zeta. now rewrite set_add_node.
      + unfold info_of. simpl. now rewrite Hi.
    - exact (@samefile_no_dst MemOS src dst fs _ Hst).
    - intros dstStat Hok. rewrite Hst in Hok. discriminate Hok.
    - intros err Herr. rewrite Hst in Herr. now injection Herr as <-. }
  assert (Hmode : CopyMode src dst followSymlinks fs1
                  = Ret None
                      (add_node fs d
                         (NFile (Z.land (Z.land perm ModePerm) ModePerm)
                            data))).
  { unfold CopyMode. mem_os. unfold mem_Lstat, mem_Stat, fs1.
    rewrite (stat_add_node_other fs "lstat" false src ps isrc d _ Hrs Hps Hd).
    rewrite (stat_add_node_new fs "lstat" false dst d _ Hrd) by now left.
    rewrite (stat_add_node_other fs "stat" true src ps isrc d _ Hrs' Hps Hd).
    rewrite IsSymlink_info, Hi, andb_false_r. simpl.
    unfold mem_Chmod.
    rewrite (resolve_add_node fs true dst d _ Hrd') by (right; discriminate).
    simpl. rewrite lookup_insert_eq. simpl.
    now rewrite set_add_node, Hi. }
  unfold Copy. mem_os. rewrite Hst. simpl. now rewrite Hcopy, Hmode.
Qed.

(** X15. [Copy] of a regular file to a path where nothing is, in a
    directory that takes a new entry, returns [dst] and nil; the file
    system is then the one before with one more regular file, at [dst],
    holding the content of [src] under the permission bits of [src]. *)
Theorem Copy_to_fresh_path :
  forall (fs : MemFS) (src dst : string) (followSymlinks : bool)
         (srcStat : FileInfo) (d : list string),
    mem_Lstat src fs = Ok srcStat ->
    IsSymlink srcStat = false ->
    IsDir srcStat = false ->
    specialfile srcStat = false ->
    resolve fs false dst = Missing d ->
    writable (tree fs) (removelast d) = true ->
    exists data,
      mem_ReadFile src fs = Ok data
      /\ Copy src dst followSymlinks fs
         = Ret (dst, None)
             (add_node fs d
                (NFile (Z.land (fi_Mode srcStat) ModePerm) data))
      /\ mem_ReadFile dst
           (add_node fs d (NFile (Z.land (fi_Mode srcStat) ModePerm) data))
         = Ok data.
Proof.
  intros fs src dst followSymlinks srcStat d Hl Hsym Hdir Hsp Hrd Hw.
  destruct (stat_with_Ok _ _ _ _ _ Hl) as (ps & isrc & Hrs & Hps & ->).
  destruct (regular_info _ _ _ _ Hsym Hdir Hsp) as (perm & data & Hi).
  exists data. unfold info_of at 1 2. simpl. rewrite Hi. simpl.
  split; [|split].
  - eapply ReadFile_of_node; [|exact Hps | exact Hi].
    eapply Stat_of_Lstat; [exact Hrs | exact Hps |].
    intros tg. rewrite Hi. discriminate.
  - eapply Copy_fresh_run; eassumption.
  - eapply ReadFile_of_node.
    + apply resolve_add_node; [|right; discriminate].
      apply resolve_follow; [exact Hrd|]. intros q tg Hq. discriminate Hq.
    + simpl. apply lookup_insert_eq.
    + reflexivity.
Qed.

(** *** Removing what was copied *)

Lemma wf_parent t k i :
  wf_tree t = true -> t !! k = Some i -> k <> [] ->
  is_dir_node (t !! removelast k) = true.
Proof.
  intros Hwf Hk Hne. unfold wf_tree in Hwf.
  rewrite forallb_forall in Hwf.
  specialize (Hwf (k, i)). simpl in Hwf.
  destruct (is_nil k) eqn:Hnil; [destruct k; [contradiction|discriminate]|].
  apply Hwf. apply list_elem_of_In. now apply elem_of_map_to_list.
Qed.

Lemma is_dir_node_Some t k :
  is_dir_node (t !! k) = true -> exists i perm, t !! k = Some i
                                               /\ i_node i = NDir perm.
Proof.
  unfold is_dir_node. destruct (t !! k) as [i|]; [|discriminate].
  simpl. destruct (i_node i) eqn:Hi; try discriminate. eauto.
Qed.

(** Below an object that is no directory there is nothing. *)
Lemma wf_nothing_below t p i r :
  wf_tree t = true -> t !! p = Some i ->
  is_dir_node (Some i) = false -> r <> [] ->
  t !! (p ++ r)%list = None.
Proof.
  intros Hwf Hp Hnd. induction r as [|c r IH] using rev_ind;
    [contradiction|]. intros _.
  destruct (t !! (p ++ r ++ [c])%list) as [j|] eqn:Hk; [|reflexivity].
  exfalso.
  assert (Hpar : is_dir_node (t !! (p ++ r)%list) = true).
  { replace (p ++ r)%list with (removelast (p ++ r ++ [c])%list).
    - eapply wf_parent; [exact Hwf | exact Hk |].
      now destruct p, r.
    - now rewrite app_assoc, removelast_last. }
  destruct r as [|c' r'].
  - rewrite app_nil_r, Hp, Hnd in Hpar. discriminate Hpar.
  - rewrite IH in Hpar by discriminate. discriminate Hpar.
Qed.

Lemma under_Some p q r : under p q = Some r -> q = (p ++ r)%list.
Proof.
  revert q. induction p as [|x p IH]; intros q H; simpl in H.
  - now injection H as <-.
  - destruct q as [|y q]; [discriminate H|].
    destruct (String.eqb_spec x y) as [->|]; [|discriminate H].
    simpl. f_equal. now apply IH.
Qed.

Lemma has_children_false t p :
  (forall r, r <> [] -> t !! (p ++ r)%list = None) ->
  has_children t p = false.
Proof.
  intros Hno. unfold has_children.
  destruct (existsb _ _) eqn:He; [|reflexivity]. exfalso.
  apply existsb_exists in He. destruct He as ([k i] & Hin & Hk).
  simpl in Hk. destruct (under p k) as [[|c r]|] eqn:Hu; try discriminate Hk.
  apply under_Some in Hu. subst k.
  apply list_elem_of_In, elem_of_map_to_list in Hin.
  rewrite Hno in Hin by discriminate. discriminate Hin.
Qed.

(** A path found elsewhere is not lost when a file goes. *)
Lemma walk_delete_other n t f cur comps p q i perm data :
  t !! q = Some i -> i_node i = NFile perm data -> p <> q ->
  walk n t f cur comps = Found p ->
  walk n (delete q t) f cur comps = Found p.
Proof.
  intros Hq Hi Hne. revert cur comps.
  induction n as [|n IH]; intros cur [|c rest] H; try discriminate H;
    try exact H.
  rewrite walk_cons in H. rewrite walk_cons.
  assert (Hcur : cur <> q).
  { intros ->. rewrite Hq in H. simpl in H. rewrite Hi in H.
    discriminate H. }
  rewrite lookup_delete_ne by congruence.
  destruct (i_node <$> t !! cur) as [[]|]; try discriminate H.
  destruct (String.eqb c "" || String.eqb c "."); [eauto|].
  destruct (String.eqb c ".."); [eauto|].
  destruct (decide (q = (cur ++ [c])%list)) as [->|Hk].
  - exfalso. rewrite Hq in H. simpl in H. rewrite Hi in H.
    destruct rest as [|c' rest'].
    + rewrite walk_nil in H. injection H as H. congruence.
    + destruct n as [|n']; [discriminate H|].
      rewrite walk_cons, Hq in H. simpl in H. rewrite Hi in H.
      discriminate H.
  - rewrite lookup_delete_ne by exact Hk.
    destruct (i_node <$> t !! (cur ++ [c])%list) as [[]|]; eauto.
    destruct (f || negb (is_nil rest)); [eauto | exact H].
Qed.

Lemma writable_dir t k :
  writable t k = true ->
  exists i perm, t !! k = Some i /\ i_node i = NDir perm.
Proof.
  unfold writable. destruct (t !! k) as [i|]; [|discriminate].
  simpl. destruct (i_node i) eqn:Hi; try discriminate. eauto.
Qed.

Lemma wf_root t k i :
  wf_tree t = true -> t !! k = Some i -> k <> [] ->
  is_dir_node (t !! []) = true.
Proof.
  intros Hwf. revert i. induction k as [|c k IH] using rev_ind;
    [contradiction|]. intros i Hk _.
  pose proof (wf_parent t _ i Hwf Hk) as Hpar.
  rewrite removelast_last in Hpar.
  specialize (Hpar ltac:(now destruct k)).
  destruct k as [|c' k']; [exact Hpar|].
  destruct (is_dir_node_Some _ _ Hpar) as (j & perm & Hj & _).
  eapply IH; [exact Hj | discriminate].
Qed.

(** An object that is no directory, in a directory that takes entries, is
    removed: what [os.Remove] does after something was put at [d]. *)
Lemma Remove_after_add fs src ps isrc d nd :
  wf_tree (tree fs) = true ->
  resolve fs false src = Found ps ->
  tree fs !! ps = Some isrc ->
  is_dir_node (Some isrc) = false ->
  writable (tree fs) (removelast ps) = true ->
  tree fs !! d = None ->
  writable (tree fs) (removelast d) = true ->
  mem_Remove src (add_node fs d nd)
  = (None, with_tree (add_node fs d nd)
             (delete ps (tree (add_node fs d nd)))).
Proof.
  intros Hwf Hrs Hps Hnd Hwp Hd Hwd.
  destruct (writable_dir _ _ Hwd) as (jd & permd & Hjd & Hjdi).
  destruct (writable_dir _ _ Hwp) as (jp & permp & Hjp & Hjpi).
  assert (Hroot : ps <> []).
  { intros ->.
    assert (Hr : is_dir_node (tree fs !! []) = true).
    { destruct (removelast d) as [|c k] eqn:Hk.
      - unfold is_dir_node. rewrite Hjd. simpl. now rewrite Hjdi.
      - eapply wf_root; [exact Hwf | exact Hjd | discriminate]. }
    rewrite Hps, Hnd in Hr. discriminate Hr. }
  assert (Hbelow : forall r, r <> [] ->
                             tree (add_node fs d nd) !! (ps ++ r)%list = None).
  { intros r Hr. simpl. rewrite lookup_insert_ne.
    - eapply wf_nothing_below; eassumption.
    - intros ->. rewrite removelast_app in Hjd by exact Hr.
      destruct (removelast r) as [|c r'] eqn:Hrl.
      + rewrite app_nil_r, Hps in Hjd. injection Hjd as <-.
        unfold is_dir_node in Hnd. simpl in Hnd. rewrite Hjdi in Hnd.
        discriminate Hnd.
      + rewrite (wf_nothing_below _ _ _ (c :: r') Hwf Hps Hnd) in Hjd
          by discriminate. discriminate Hjd. }
  unfold mem_Remove.
  rewrite (resolve_add_node_Found fs false src ps d nd Hd Hrs).
  destruct ps as [|c0 ps0] eqn:Hpse; [contradiction|]. rewrite <- Hpse in *.
  replace (is_nil ps) with false by (now rewrite Hpse).
  rewrite (has_children_false _ _ Hbelow).
  replace (writable (tree (add_node fs d nd)) (removelast ps)) with true;
    [reflexivity|].
  unfold writable. simpl. rewrite lookup_insert_ne.
  - rewrite Hjp. simpl. rewrite Hjpi. unfold writable in Hwp.
    rewrite Hjp in Hwp. simpl in Hwp. now rewrite Hjpi in Hwp.
  - intros Heq. rewrite Heq, Hjp in Hd. discriminate Hd.
Qed.

(** Renaming to another device fails and changes nothing. *)
Lemma Rename_other_device fs src dst ps d :
  resolve fs false src = Found ps ->
  resolve fs false dst = Missing d ->
  dev_of fs ps <> dev_of fs d ->
  exists e, mem_Rename src dst fs = (Some e, fs).
Proof.
  intros Hrs Hrd Hdev. unfold mem_Rename. rewrite Hrs, Hrd.
  destruct (is_nil ps || bool_decide (ps ∈ mounts fs)); [eauto|].
  destruct (Z.eqb_spec (dev_of fs ps) (dev_of fs d)); [contradiction|].
  simpl. eauto.
Qed.

(** X16. On a well-formed tree, [Move] with the default options of a
    regular file to another device, to a path where nothing is, when the
    directories of [src] and of [dst] are both writable: the rename fails,
    the file is copied with [Copy] and then removed.  [Move] returns [dst]
    and nil; afterwards [dst] reads as [src] did and nothing is at the
    place of [src]. *)
Theorem Move_file_to_other_device :
  forall (fuel : nat) (fs : MemFS) (src dst : string)
         (srcStat : FileInfo) (ps d : list string),
    wf_tree (tree fs) = true ->
    mem_Lstat src fs = Ok srcStat ->
    IsSymlink srcStat = false ->
    IsDir srcStat = false ->
    specialfile srcStat = false ->
    resolve fs false src = Found ps ->
    writable (tree fs) (removelast ps) = true ->
    resolve fs false dst = Missing d ->
    writable (tree fs) (removelast d) = true ->
    dev_of fs ps <> dev_of fs d ->
    exists fs' data,
      Move fuel src dst None fs = Ret (dst, None) fs'
      /\ mem_ReadFile src fs = Ok data
      /\ mem_ReadFile dst fs' = Ok data
      /\ tree fs' !! ps = None.
Proof.
  intros fuel fs src dst srcStat ps d Hwf Hl Hsym Hdir Hsp Hrs Hwp Hrd Hwd
         Hdev.
  destruct (stat_with_Ok _ _ _ _ _ Hl) as (ps' & isrc & Hrs' & Hps & Heq).
  rewrite Hrs in Hrs'. injection Hrs' as <-. subst srcStat.
  destruct (regular_info _ _ _ _ Hsym Hdir Hsp) as (perm & data & Hi).
  assert (Hrst : resolve fs true src = Found ps).
  { eapply Stat_of_Lstat; [exact Hrs | exact Hps |].
    intros tg. rewrite Hi. discriminate. }
  assert (Hrd' : resolve fs true dst = Missing d).
  { apply resolve_follow; [exact Hrd|]. intros q tg Hq. discriminate Hq. }
  pose proof (resolve_Missing_None _ _ _ _ Hrd) as Hd.
  assert (Hne : d <> ps).
  { intros ->. rewrite Hd in Hps. discriminate Hps. }
  destruct (Rename_other_device fs src dst ps d Hrs Hrd Hdev) as [e Hren].
  set (nd := NFile (Z.land (Z.land perm ModePerm) ModePerm) data).
  exists (with_tree (add_node fs d nd) (delete ps (tree (add_node fs d nd)))),
         data.
  split; [|split; [|split]].
  - unfold Move, isDirectory. mem_os.
    unfold mem_Stat at 1, stat_with. rewrite Hrd'. simpl.
    unfold Move_to, isDirectory. mem_os. rewrite Hren, Hl, Hsym.
    unfold mem_Stat, stat_with. rewrite Hrst, Hps, Hdir. simpl.
    unfold bind.
    rewrite (Copy_fresh_run fs src dst true ps isrc perm data d
               Hrs Hps Hi Hrd Hwd).
    simpl. fold nd.
    rewrite (Remove_after_add fs src ps isrc d nd Hwf Hrs Hps); auto.
    unfold is_dir_node. simpl. now rewrite Hi.
  - eapply ReadFile_of_node; eassumption.
  - eapply ReadFile_of_node.
    + unfold resolve. simpl.
      assert (Hx : resolve (add_node fs d nd) true dst = Found d).
      { apply resolve_add_node; [exact Hrd' | right; discriminate]. }
      unfold resolve in Hx. simpl in Hx.
      destruct (String.eqb dst ""); [discriminate Hx|].
      eapply walk_delete_other; [| exact Hi | exact Hne | exact Hx].
      now rewrite lookup_insert_ne.
    + simpl. rewrite lookup_delete_ne by congruence.
      apply lookup_insert_eq.
    + reflexivity.
  - simpl. apply lookup_delete_eq.
Qed.

(** X17. On a well-formed tree, [Move] of a symbolic link with a target
    that is not the empty string to another device, to a path where nothing
    is, when the directories of [src] and of [dst] are both writable: the
    rename fails, a link with the same target string is made at [dst] and
    the old link is removed.  [Move] returns [dst] and nil; the file system
    is the one before without the object of [src] and with the new link. *)
Theorem Move_link_to_other_device :
  forall (fuel : nat) (fs : MemFS) (src dst target : string)
         (options : option MoveOptions) (ps d : list string),
    wf_tree (tree fs) = true ->
    mem_Readlink src fs = Ok target ->
    String.eqb target "" = false ->
    resolve fs false src = Found ps ->
    writable (tree fs) (removelast ps) = true ->
    resolve fs false dst = Missing d ->
    writable (tree fs) (removelast d) = true ->
    dev_of fs ps <> dev_of fs d ->
    exists fs',
      Move fuel src dst options fs = Ret (dst, None) fs'
      /\ tree fs'
         = delete ps
             (<[d := {| i_ino := next_ino fs; i_node := NLink target |}]>
                (tree fs))
      /\ tree fs' !! d
         = Some {| i_ino := next_ino fs; i_node := NLink target |}
      /\ tree fs' !! ps = None.
Proof.
  intros fuel fs src dst target options ps d Hwf Hrl Htg Hrs Hwp Hrd Hwd
         Hdev.
  assert (Hnode : exists isrc, tree fs !! ps = Some isrc
                               /\ i_node isrc = NLink target).
  { unfold mem_Readlink in Hrl. rewrite Hrs in Hrl.
    destruct (tree fs !! ps) as [isrc|]; [|discriminate Hrl].
    simpl in Hrl. destruct (i_node isrc) eqn:Hi; try discriminate Hrl.
    injection Hrl as ->. eauto. }
  destruct Hnode as (isrc & Hps & Hi).
  assert (Hrd' : resolve fs true dst = Missing d).
  { apply resolve_follow; [exact Hrd|]. intros q tg Hq. discriminate Hq. }
  pose proof (resolve_Missing_None _ _ _ _ Hrd) as Hd.
  assert (Hne : d <> ps).
  { intros ->. rewrite Hd in Hps. discriminate Hps. }
  destruct (Rename_other_device fs src dst ps d Hrs Hrd Hdev) as [e Hren].
  assert (Hl : mem_Lstat src fs
               = Ok (info_of fs (filepath_Base src) ps isrc)).
  { unfold mem_Lstat, stat_with. now rewrite Hrs, Hps. }
  exists (with_tree (add_node fs d (NLink target))
            (delete ps (tree (add_node fs d (NLink target))))).
  split; [|split; [|split]].
  - unfold Move, isDirectory. mem_os.
    unfold mem_Stat at 1, stat_with. rewrite Hrd'. simpl.
    assert (Hto : forall o,
               Move_to fuel src dst dst o fs
               = Ret (dst, None)
                   (with_tree (add_node fs d (NLink target))
                      (delete ps (tree (add_node fs d (NLink target)))))).
    { intros o. unfold Move_to. mem_os.
      rewrite Hren, Hl, IsSymlink_info, Hi, Hrl.
      unfold mem_Symlink. rewrite Htg, Hrd, Hwd.
      rewrite (Remove_after_add fs src ps isrc d (NLink target)
                 Hwf Hrs Hps); auto.
      unfold is_dir_node. simpl. now rewrite Hi. }
    apply Hto.
  - reflexivity.
  - simpl. rewrite lookup_delete_ne by congruence. apply lookup_insert_eq.
  - simpl. apply lookup_delete_eq.
Qed.

End MemFS_copy.

(** * Further runs on the test trees *)

Lemma stringInSlice_In_witness :
  stringInSlice "build" ["src"; "build"] = true
  /\ ~ In "dist" ["src"; "build"].
Proof.
  split.
  - apply (proj2 (stringInSlice_In "build" ["src"; "build"])).
    right. left. reflexivity.
  - intros Hin.
    apply (proj2 (stringInSlice_In "dist" ["src"; "build"])) in Hin.
    discriminate Hin.
Defined.

Lemma Copy_onto_itself_witness :
  Copy "/a" "/a" false tree_flat
  = Ret ("/a", Some (SameFileError "/a" "/a")) tree_flat.
Proof.
  eapply (@Copy_onto_itself MemOS "/a" false tree_flat).
  - vm_compute. reflexivity.
  - vm_compute. reflexivity.
Defined.

(** Into the directory [/d], where an [a] is already: the path returned is
    [/d/a]. *)
Lemma Copy_returns_target_witness :
  exists fs' err,
    Copy "/a" "/d" false tree_flat = Ret ("/d/a", err) fs'.
Proof.
  destruct (@Copy MemOS "/a" "/d" false tree_flat) as [[p err] fs'| |] eqn:Hrun.
  - exists fs', err.
    rewrite (@Copy_returns_target MemOS "/a" "/d" false tree_flat fs' p err
               Hrun).
    vm_compute. reflexivity.
  - vm_compute in Hrun. discriminate Hrun.
  - vm_compute in Hrun. discriminate Hrun.
Defined.

Lemma CopyTree_src_not_directory_witness :
  exists err,
    CopyTree 1 "/a" "/x" None tree_flat = Ret (Some err) tree_flat
    /\ err = NotADirectoryError "/a".
Proof.
  destruct (@CopyTree_src_not_directory MemOS 0 "/a" "/x" None tree_flat)
    as (err & Hrun & [Hst | [_ ->]]).
  - intros info Hinfo. vm_compute in Hinfo. injection Hinfo as <-.
    vm_compute. reflexivity.
  - vm_compute in Hst. discriminate Hst.
  - eauto.
Defined.

Lemma destinsrc_true_iff_witness :
  destinsrc "/d" "/d/a" tree_flat = (true, None).
Proof.
  apply (proj2 (@destinsrc_true_iff MemOS "/d" "/d/a" "/d" "/d/a" tree_flat
                  eq_refl eq_refl)).
  exists "a". reflexivity.
Defined.

Lemma Move_result_witness :
  exists fs',
    Move 1 "/a" "/b" None tree_flat = Ret ("/b", None) fs'.
Proof.
  destruct (@Move MemOS 1 "/a" "/b" None tree_flat) as [[p [err|]] fs'| |] eqn:Hrun;
    try (vm_compute in Hrun; discriminate Hrun).
  pose proof (@Move_result MemOS 1 "/a" "/b" None tree_flat fs' p None Hrun)
    as Hp.
  vm_compute in Hp. subst p. eauto.
Defined.

Lemma Move_onto_self_witness :
  Move 1 "/a" "/a/new" None tree_mounted
  = Ret ("", Some (MoveOntoSelfError "/a" "/a/new")) tree_mounted.
Proof.
  eapply (@Move_onto_self MemOS 1 "/a" "/a/new" "/a/new" None tree_mounted).
  - left. split; vm_compute; reflexivity.
  - vm_compute. reflexivity.
  - vm_compute. reflexivity.
  - vm_compute. reflexivity.
  - vm_compute. reflexivity.
  - vm_compute. reflexivity.
  - vm_compute. reflexivity.
Defined.

Lemma CopyMode_panics_iff_witness :
  exists srcStat dstStat,
    @os_Lstat MemOS "/k" tree_flat = Ok srcStat
    /\ @os_Lstat MemOS "/a" tree_flat = Ok dstStat.
Proof.
  destruct (proj1 (@CopyMode_panics_iff MemOS "/k" "/a" true
                     tree_flat tree_flat))
    as (_ & srcStat & dstStat & Hs & Hd & _).
  - vm_compute. reflexivity.
  - exists srcStat, dstStat. split; [exact Hs | exact Hd].
Defined.

Lemma CopyFile_to_fresh_path_witness :
  exists fs',
    CopyFile "/a" "/b" false tree_flat = Ret None fs'
    /\ mem_ReadFile "/b" fs' = Ok (bytes "new").
Proof.
  destruct (CopyFile_to_fresh_path tree_flat "/a" "/b" false
              {| fi_Name := "a"; fi_Size := 3; fi_Mode := 420; fi_Dev := 0;
                 fi_Ino := 2 |} ["b"])
    as (fs' & data & Hrun & Hsrc & Hdst & _).
  - vm_compute. reflexivity.
  - vm_compute. reflexivity.
  - vm_compute. reflexivity.
  - vm_compute. reflexivity.
  - vm_compute. reflexivity.
  - vm_compute. reflexivity.
  - exists fs'. split; [exact Hrun|].
    rewrite Hdst, <- Hsrc. vm_compute. reflexivity.
Defined.

Lemma CopyFile_over_file_witness :
  exists fs',
    CopyFile "/a" "/d/a" false tree_flat = Ret None fs'
    /\ mem_ReadFile "/d/a" tree_flat = Ok (bytes "old")
    /\ mem_ReadFile "/d/a" fs' = Ok (bytes "new").
Proof.
  destruct (CopyFile_over_file tree_flat "/a" "/d/a" false
              {| fi_Name := "a"; fi_Size := 3; fi_Mode := 420; fi_Dev := 0;
                 fi_Ino := 2 |}
              {| fi_Name := "a"; fi_Size := 3; fi_Mode := 420; fi_Dev := 0;
                 fi_Ino := 4 |})
    as (fs' & data & Hrun & Hsrc & Hdst & _).
  - vm_compute. reflexivity.
  - vm_compute. reflexivity.
  - vm_compute. reflexivity.
  - vm_compute. reflexivity.
  - vm_compute. reflexivity.
  - vm_compute. reflexivity.
  - vm_compute. reflexivity.
  - vm_compute. reflexivity.
  - vm_compute. reflexivity.
  - exists fs'. split; [exact Hrun|]. split; [vm_compute; reflexivity|].
    rewrite Hdst, <- Hsrc. vm_compute. reflexivity.
Defined.

(** The file [/t] (mode 0644) gets the bits 0555 of the directory [/s]. *)
Lemma CopyMode_copies_permissions_witness :
  exists fs' dstStat,
    CopyMode "/s" "/t" false tree_readonly = Ret None fs'
    /\ mem_Stat "/t" fs' = Ok dstStat
    /\ Z.land (fi_Mode dstStat) ModePerm = 365.
Proof.
  destruct (CopyMode_copies_permissions tree_readonly "/s" "/t" false
              {| fi_Name := "s"; fi_Size := 4096;
                 fi_Mode := Z.lor ModeDir 365; fi_Dev := 0; fi_Ino := 2 |}
              {| fi_Name := "t"; fi_Size := 1; fi_Mode := 420; fi_Dev := 0;
                 fi_Ino := 4 |}
              {| fi_Name := "s"; fi_Size := 4096;
                 fi_Mode := Z.lor ModeDir 365; fi_Dev := 0; fi_Ino := 2 |}
              {| fi_Name := "t"; fi_Size := 1; fi_Mode := 420; fi_Dev := 0;
                 fi_Ino := 4 |})
    as (fs' & dstStat & Hrun & Hst & Hperm & _).
  - vm_compute. reflexivity.
  - vm_compute. reflexivity.
  - vm_compute. reflexivity.
  - vm_compute. reflexivity.
  - vm_compute. reflexivity.
  - vm_compute. reflexivity.
  - exists fs', dstStat. split; [exact Hrun|]. split; [exact Hst|].
    rewrite Hperm. vm_compute. reflexivity.
Defined.

Lemma Copy_to_fresh_path_witness :
  exists fs',
    Copy "/a" "/b" false tree_flat = Ret ("/b", None) fs'
    /\ mem_ReadFile "/b" fs' = Ok (bytes "new").
Proof.
  destruct (Copy_to_fresh_path tree_flat "/a" "/b" false
              {| fi_Name := "a"; fi_Size := 3; fi_Mode := 420; fi_Dev := 0;
                 fi_Ino := 2 |} ["b"])
    as (data & Hsrc & Hrun & Hdst).
  - vm_compute. reflexivity.
  - vm_compute. reflexivity.
  - vm_compute. reflexivity.
  - vm_compute. reflexivity.
  - vm_compute. reflexivity.
  - vm_compute. reflexivity.
  - eexists. split; [exact Hrun|].
    rewrite Hdst, <- Hsrc. vm_compute. reflexivity.
Defined.

Lemma Move_file_to_other_device_witness :
  exists fs',
    Move 1 "/a/z" "/mnt/z" None tree_mounted = Ret ("/mnt/z", None) fs'
    /\ mem_ReadFile "/mnt/z" fs' = Ok (bytes "data")
    /\ tree fs' !! ["a"; "z"] = None.
Proof.
  destruct (Move_file_to_other_device 1 tree_mounted "/a/z" "/mnt/z"
              {| fi_Name := "z"; fi_Size := 4; fi_Mode := 420; fi_Dev := 0;
                 fi_Ino := 4 |} ["a"; "z"] ["mnt"; "z"])
    as (fs' & data & Hrun & Hsrc & Hdst & Hgone).
  - vm_compute. reflexivity.
  - vm_compute. reflexivity.
  - vm_compute. reflexivity.
  - vm_compute. reflexivity.
  - vm_compute. reflexivity.
  - vm_compute. reflexivity.
  - vm_compute. reflexivity.
  - vm_compute. reflexivity.
  - vm_compute. reflexivity.
  - vm_compute. discriminate.
  - exists fs'. split; [exact Hrun|]. split; [|exact Hgone].
    rewrite Hdst, <- Hsrc. vm_compute. reflexivity.
Defined.

Lemma Move_link_to_other_device_witness :
  exists fs',
    Move 1 "/l" "/mnt/l" None tree_mounted_link = Ret ("/mnt/l", None) fs'
    /\ tree fs' !! ["mnt"; "l"]
       = Some {| i_ino := 5; i_node := NLink "/t" |}
    /\ tree fs' !! ["l"] = None.
Proof.
  destruct (Move_link_to_other_device 1 tree_mounted_link "/l" "/mnt/l" "/t"
              None ["l"] ["mnt"; "l"])
    as (fs' & Hrun & _ & Hnew & Hgone).
  - vm_compute. reflexivity.
  - vm_compute. reflexivity.
  - vm_compute. reflexivity.
  - vm_compute. reflexivity.
  - vm_compute. reflexivity.
  - vm_compute. reflexivity.
  - vm_compute. reflexivity.
  - vm_compute. discriminate.
  - exists fs'. split; [exact Hrun|]. split; [exact Hnew | exact Hgone].
Defined.

Lemma CopyFile_nofollow_dst_taken_witness :
  exists err, CopyFile "/l" "/d/a" false tree_flat = Ret (Some err) tree_flat.
Proof.
  eapply (CopyFile_nofollow_dst_taken tree_flat "/l" "/d/a").
  - vm_compute. reflexivity.
  - vm_compute. reflexivity.
  - vm_compute. reflexivity.
Defined.

Lemma CopyTree_nil_needs_witness :
  exists info,
    @os_Stat MemOS "/s" tree_link = Ok info /\ IsDir info = true.
Proof.
  destruct (@CopyTree MemOS 2 "/s" "/d" None tree_link)
    as [[err|] fs'| |] eqn:Hrun;
    try (vm_compute in Hrun; discriminate Hrun).
  destruct (@CopyTree_nil_needs MemOS 2 "/s" "/d" None tree_link fs' Hrun)
    as (info & Hst & Hdir & _).
  exists info. split; [exact Hst | exact Hdir].
Defined.

Lemma CopyFile_nil_needs_witness :
  samefile "/a" "/b" tree_flat = false.
Proof.
  destruct (@CopyFile MemOS "/a" "/b" false tree_flat)
    as [[err|] fs'| |] eqn:Hrun;
    try (vm_compute in Hrun; discriminate Hrun).
  exact (proj1 (@CopyFile_nil_needs MemOS "/a" "/b" false tree_flat fs' Hrun)).
Defined.
